(** * MyDojo: a shallow embedding of the navigation macros, the database
      bootstrap script, the WSGI entry point, the Grunt vendoring task and
      the client-side module, with the properties checked against them.

    The file has two parts.  Part I holds the models, one module per source
    file.  Part II holds the statements and their proofs. *)

From Stdlib Require Import Ascii String List ZArith Bool Lia DecimalString.
From stdpp Require Import gmap strings list fin_maps.

Set Default Proof Using "Type".
#[global] Set Warnings "-register-all".

(* ===================================================================== *)
(** * Part I: models                                                      *)
(* ===================================================================== *)

(** ** Rendered markup

    The Jinja macros produce text.  The model keeps the element structure of
    that text: tags, attributes in source order (each attribute value is the
    very string the template concatenates) and child nodes.  Indentation and
    the whitespace between nodes are not represented. *)

Module Html.

Inductive html :=
| Elem (tag : string) (attrs : list (string * string)) (children : list html)
| Text (s : string)       (* an escaped [{{ ... }}] substitution or literal text *)
| Raw (s : string)        (* markup returned by a template global, kept opaque *)
| Comment (s : string).   (* [<!-- ... -->] *)

(** Value of the first attribute called [name]. *)
Fixpoint attr (name : string) (attrs : list (string * string)) : option string :=
  match attrs with
  | [] => None
  | (k, v) :: rest => if String.eqb k name then Some v else attr name rest
  end.

(** The space-separated tokens of an attribute value. *)
Fixpoint tokens_from (cur : string) (s : string) : list string :=
  match s with
  | EmptyString => if String.eqb cur "" then [] else [cur]
  | String c rest =>
      if Ascii.eqb c " "%char
      then (if String.eqb cur "" then tokens_from "" rest
            else cur :: tokens_from "" rest)
      else tokens_from (cur +:+ String c EmptyString) rest
  end.

Definition tokens (s : string) : list string := tokens_from "" s.

Definition classes (h : html) : list string :=
  match h with
  | Elem _ attrs _ =>
      match attr "class" attrs with
      | Some v => tokens v
      | None => []
      end
  | _ => []
  end.

(** [has_class c h]: the element [h] carries the CSS class [c]. *)
Definition has_class (c : string) (h : html) : bool :=
  existsb (String.eqb c) (classes h).

Definition children_of (h : html) : list html :=
  match h with
  | Elem _ _ ch => ch
  | _ => []
  end.

Definition tag_of (h : html) : option string :=
  match h with
  | Elem t _ _ => Some t
  | _ => None
  end.

(** Number of elements of a tree that carry class [c]. *)
Fixpoint count_class (c : string) (h : html) : nat :=
  match h with
  | Elem _ _ ch =>
      (if has_class c h then 1 else 0) + list_sum (List.map (count_class c) ch)
  | _ => 0
  end.

(** A menu container is an element that holds a list of menu entries: the
    navigation bar itself ([navbar-nav]) or a dropdown ([dropdown-menu]). *)
Definition is_menu_container (h : html) : bool :=
  has_class "navbar-nav" h || has_class "dropdown-menu" h.

(** Nesting depth of menu containers. *)
Fixpoint menu_depth (h : html) : nat :=
  match h with
  | Elem _ _ ch =>
      (if is_menu_container h then 1 else 0) + list_max (List.map menu_depth ch)
  | _ => 0
  end.

(** The dropdown containers directly below an element. *)
Definition dropdown_containers (h : html) : list html :=
  List.filter (has_class "dropdown-menu") (children_of h).

End Html.

(** ** [mydojo/blueprints/design/templates/_macros_site.html] *)

Module MacrosSite.
Import Html.

Section Macros.
(** The Flask request and the context item handed to action menus. *)
Variables request ctx : Type.

(** A menu entry, as far as the templates use it.  The Python class is
    not part of the sources at hand; each method the templates call is a
    field.  Methods that accept the keyword [item] take an
    [option ctx]; [None] stands for a call without it. *)
Inductive menu_item := MenuItem {
  ident : string;
  type : string;
  resptitle : bool;
  align_right : bool;
  is_active : request -> bool;
  get_url : option ctx -> string;
  get_legend : option ctx -> string;
  get_icon : option ctx -> string;
  get_title : option ctx -> string;
  get_entries : option ctx -> list menu_item
}.

(** A menu object: only [get_entries] is called on it. *)
Definition menu := option ctx -> list menu_item.

(** Template globals: [get_icon(name)] and the translation [_]. *)
Variable icon_markup : string -> string.
Variable gettext : string -> string.

(** Jinja truth of a string: empty is false. *)
Definition truthy (s : string) : bool := negb (String.eqb s "").

Definition is_submenu (mi : menu_item) : bool := String.eqb (type mi) "submenu".

(** The two kinds of entry the templates tell apart: [type == 'submenu'],
    and everything else. *)
Inductive entry_kind := Leaf | Submenu.

Definition kind_of (mi : menu_item) : entry_kind :=
  if is_submenu mi then Submenu else Leaf.

(** Jinja truth of a list: empty is false. *)
Definition nonempty {A} (l : list A) : bool :=
  match l with [] => false | _ => true end.

Definition tooltip (legend : string) : list (string * string) :=
  if truthy legend then [("data-toggle", "tooltip"); ("title", legend)] else [].

(** Lines 18-20 and 28-30: icon, title and the screen-reader marker. *)
Definition navbar_label (mi : menu_item) (active : bool) : list html :=
  (if truthy (get_icon mi None) then [Raw (icon_markup (get_icon mi None))] else [])
  ++ (if truthy (get_title mi None)
      then (if resptitle mi
            then [Elem "span" [("class", "d-none d-lg-inline")] [Text (get_title mi None)]]
            else [Text (get_title mi None)])
      else [])
  ++ (if active
      then [Elem "span" [("class", "sr-only")] [Text ("(" +:+ gettext "current" +:+ ")")]]
      else []).

(** Lines 26-31: one entry of a dropdown of the main menu. *)
Definition render_navbar_subitem (req : request) (submenu_subitem : menu_item) : html :=
  let submenu_subitem_is_active := is_active submenu_subitem req in
  Elem "a"
    [("class", "dropdown-item" +:+ (if submenu_subitem_is_active then " active" else ""));
     ("href", if submenu_subitem_is_active then "#" else get_url submenu_subitem None)]
    (navbar_label submenu_subitem submenu_subitem_is_active).

(** Lines 11-35: one entry of the main menu. *)
Definition render_navbar_item (req : request) (menu_item : menu_item) : html :=
  let menu_item_is_active := is_active menu_item req in
  Elem "li"
    [("class", "nav-item" +:+
               (if is_submenu menu_item then " dropdown"
                else if is_active menu_item req then " active" else ""))]
    ((if is_submenu menu_item
      then Elem "a"
             [("class", "nav-link dropdown-toggle"); ("href", "#");
              ("id", "navbar-dropdown-" +:+ ident menu_item);
              ("role", "button"); ("data-toggle", "dropdown");
              ("aria-haspopup", "true"); ("aria-expanded", "false")]
             (navbar_label menu_item menu_item_is_active)
      else Elem "a"
             ([("class", "nav-link");
               ("href", if menu_item_is_active then "#" else get_url menu_item None)]
              ++ tooltip (get_legend menu_item None))
             (navbar_label menu_item menu_item_is_active))
     :: (let menu_item_submenu := get_entries menu_item None in
         if is_submenu menu_item && nonempty menu_item_submenu
         then [Elem "div"
                 [("class", "dropdown-menu");
                  ("aria-labelledby", "navbar-dropdown-" +:+ ident menu_item)]
                 (List.map (render_navbar_subitem req) menu_item_submenu)]
         else [])).

(** Lines 7-39. *)
Definition render_navbar_main (mydojo_navbar_main : menu) (req : request) : list html :=
  [Comment "Main menu widget - BEGIN";
   Elem "ul" [("class", "navbar-nav mr-auto")]
     (List.map (render_navbar_item req) (mydojo_navbar_main None));
   Comment "Main menu widget - END"].

(** Icon and title of an action-menu entry (lines 80, 86 and 92). *)
Definition action_label (mi : menu_item) (context_item : option ctx) : list html :=
  (if truthy (get_icon mi context_item)
   then [Raw (icon_markup (get_icon mi context_item))] else [])
  ++ (if truthy (get_title mi context_item)
      then (if resptitle mi
            then [Elem "span" [("class", "hidden-sm")] [Text (get_title mi context_item)]]
            else [Text (get_title mi context_item)])
      else []).

(** Lines 84-88: one entry of a dropdown of an action menu. *)
Definition render_action_subitem (context_item : option ctx) (submenu_item : menu_item) : html :=
  Elem "a"
    ([("class", "dropdown-item"); ("href", get_url submenu_item context_item)]
     ++ tooltip (get_legend submenu_item context_item))
    (action_label submenu_item context_item).

(** Lines 77-94: one entry of an action menu.  A submenu yields two
    sibling elements, the toggle and the dropdown list. *)
Definition render_action_item (context_item : option ctx) (menu_item : menu_item) : list html :=
  if is_submenu menu_item
  then [Elem "a"
          [("data-toggle", "dropdown"); ("role", "button"); ("aria-haspopup", "true");
           ("href", "#"); ("class", "btn btn-secondary btn-sm dropdown-toggle");
           ("aria-expanded", "false")]
          [Elem "span" (tooltip (get_legend menu_item context_item))
             (action_label menu_item context_item
              ++ [Elem "span" [("class", "caret")] []])];
        Elem "ul"
          [("class", "dropdown-menu" +:+
                     (if align_right menu_item then " dropdown-menu-right" else ""))]
          (List.map (render_action_subitem context_item)
                    (get_entries menu_item context_item))]
  else [Elem "a"
          ([("role", "button"); ("class", "btn btn-secondary btn-sm");
            ("href", get_url menu_item context_item)]
           ++ tooltip (get_legend menu_item context_item))
          (action_label menu_item context_item)].

(** Lines 69-101. *)
Definition render_menu_actions (action_menu : option menu) (context_item : option ctx)
    (cssclass : string) : list html :=
  match action_menu with
  | None => []
  | Some action_menu =>
      let menu_item_list := action_menu context_item in
      if nonempty menu_item_list
      then [Comment "Item context action menu widget - BEGIN";
            Elem "div"
              [("class", "btn-toolbar" +:+
                         (if truthy cssclass then " " +:+ cssclass else ""));
               ("role", "toolbar");
               ("aria-label", gettext "Item context action toolbar")]
              [Elem "div"
                 [("class", "btn-group btn-group-sm"); ("role", "group");
                  ("aria-label", gettext "Item context action buttons")]
                 (List.concat (List.map (render_action_item context_item) menu_item_list))];
            Comment "Item context action menu widget - END"]
      else []
  end.

(** The view being rendered, for the two wrappers below. *)
Variable mydojo_current_view_get_action_menu : option menu.
Variable mydojo_current_view_get_context_action_menu : option menu.

(** Lines 47-52. *)
Definition render_navbar_actions (action_menu : option menu) (context_item : option ctx)
    (css_class : string) : list html :=
  let action_menu :=
    match action_menu with
    | None => mydojo_current_view_get_action_menu
    | Some _ => action_menu
    end in
  render_menu_actions action_menu context_item css_class.

(** Lines 61-66. *)
Definition render_menu_context_actions (context_item : option ctx)
    (action_menu : option menu) (css_class : string) : list html :=
  let action_menu :=
    match action_menu with
    | None => mydojo_current_view_get_context_action_menu
    | Some _ => action_menu
    end in
  render_menu_actions action_menu context_item css_class.

(** The entries of the rendered main menu: the children of its [ul]. *)
Definition navbar_entries (out : list html) : list html :=
  List.concat (List.map children_of (List.filter (has_class "navbar-nav") out)).

(** The links held by the dropdown containers directly below an element. *)
Definition dropdown_links (h : html) : list html :=
  List.concat (List.map children_of (dropdown_containers h)).

(** How many elements the main menu is expected to mark for one entry: a
    submenu counts its active entries, any other entry counts itself. *)
Definition marked_active (req : request) (mi : menu_item) : nat :=
  if is_submenu mi
  then length (List.filter (fun sub => is_active sub req) (get_entries mi None))
  else if is_active mi req then 1 else 0.

End Macros.

Arguments MenuItem {request ctx}.
Arguments ident {request ctx}.
Arguments type {request ctx}.
Arguments resptitle {request ctx}.
Arguments align_right {request ctx}.
Arguments is_active {request ctx}.
Arguments get_url {request ctx}.
Arguments get_legend {request ctx}.
Arguments get_icon {request ctx}.
Arguments get_title {request ctx}.
Arguments get_entries {request ctx}.
Arguments is_submenu {request ctx}.
Arguments kind_of {request ctx}.
Arguments render_navbar_subitem {request ctx}.
Arguments render_navbar_item {request ctx}.
Arguments render_navbar_main {request ctx}.
Arguments render_action_subitem {request ctx}.
Arguments render_action_item {request ctx}.
Arguments render_menu_actions {request ctx}.
Arguments render_navbar_actions {request ctx}.
Arguments render_menu_context_actions {request ctx}.
Arguments navbar_label {request ctx}.
Arguments marked_active {request ctx}.
Arguments action_label {request ctx}.

End MacrosSite.

(** ** [_macros_site.html], the remaining widgets (lines 104-212) *)

Module SiteWidgets.
Import Html MacrosSite.

Section Widgets.
(** Template globals: [get_icon(name)], the translation [_],
    [check_endpoint_exists] and Flask's [url_for], which fails for an
    endpoint it cannot build. *)
Variable icon_markup : string -> string.
Variable gettext : string -> string.
Variable check_endpoint_exists : string -> bool.
Variable url_for : string -> option string.

(** [current_user], as far as the templates read it. *)
Record user := User { is_authenticated : bool; login : string }.

(** One link of the authentication dropdown (lines 116-118 and the like);
    rendering fails when [url_for] does. *)
Definition auth_link (endpoint title text : string) : option html :=
  match url_for endpoint with
  | Some url =>
      Some (Elem "a" [("class", "dropdown-item"); ("href", url); ("title", gettext title)]
              [Text (gettext text)])
  | None => None
  end.

(** A link guarded by [check_endpoint_exists] (lines 123-137): no link and
    no call of [url_for] when the endpoint does not exist. *)
Definition guarded_auth_link (endpoint title text : string) : option (list html) :=
  if check_endpoint_exists endpoint
  then match auth_link endpoint title text with
       | Some a => Some [a]
       | None => None
       end
  else Some [].

(** Concatenation of parts, failing when one of them fails. *)
Fixpoint all_parts (parts : list (option (list html))) : option (list html) :=
  match parts with
  | [] => Some []
  | Some l :: rest =>
      match all_parts rest with
      | Some ls => Some (l ++ ls)
      | None => None
      end
  | None :: _ => None
  end.

(** The links of the authentication dropdown (lines 115-138). *)
Definition auth_links (current_user : user) : option (list html) :=
  if is_authenticated current_user
  then all_parts
         [(fun a => [a]) <$> auth_link "users.profile" "Profile" "Profile";
          (fun a => [a]) <$> auth_link "logout" "Logout" "Logout"]
  else all_parts
         [guarded_auth_link "auth_pwd.login" "Password login" "Login (pwd)";
          guarded_auth_link "auth_dev.login" "Developer login" "Login (dev)";
          guarded_auth_link "auth_pwd.register" "Register account" "Register (pwd)"].

(** Lines 104-142.  [None] is a failed [url_for]. *)
Definition render_submenu_auth (current_user : user) : option (list html) :=
  match auth_links current_user with
  | Some links =>
      Some [Comment "Authenticated menu widget - BEGIN";
            Elem "li" [("class", "nav-item dropdown")]
              [Elem "a"
                 [("class", "nav-link dropdown-toggle"); ("href", "#"); ("id", "dropdown-auth");
                  ("role", "button"); ("data-toggle", "dropdown");
                  ("aria-haspopup", "true"); ("aria-expanded", "false")]
                 [Text (if is_authenticated current_user
                        then login current_user
                        else gettext "Anonymous")];
               Elem "div" [("class", "dropdown-menu"); ("aria-labelledby", "dropdown-auth")]
                 links];
            Comment "Authenticated menu widget - END"]
  | None => None
  end.

(** Lines 173-177: the two category aliases. *)
Definition alert_category (category : string) : string :=
  if String.eqb category "error" then "danger"
  else if String.eqb category "message" then "info"
  else category.

(** Lines 172-191.  [forceicon] is a string, empty for [None]; [caller] is
    the rendered body of the [call] block. *)
Definition render_alert (category : string) (dismissible : bool) (forceicon : string)
    (caller : list html) : html :=
  let category := alert_category category in
  Elem "div"
    [("class", "alert alert-" +:+ category
               +:+ (if dismissible then " alert-dismissible" else ""));
     ("role", "alert")]
    ((if dismissible
      then [Elem "button"
              [("type", "button"); ("class", "close"); ("data-dismiss", "alert");
               ("data-toggle", "tooltip"); ("aria-label", gettext "Close");
               ("title", gettext "Close")]
              [Elem "span" [("aria-hidden", "true")] [Raw "&times;"]]]
      else [])
     ++ [Raw (icon_markup (if truthy forceicon then forceicon
                           else "alert-" +:+ category))]
     ++ caller).

(** Lines 194-200. *)
Definition render_label_item_state (state with_label : bool) : html :=
  if state
  then Elem "span"
         [("class", "badge badge-success"); ("title", gettext "Enabled");
          ("data-toggle", "tooltip")]
         (Raw (icon_markup "item-enabled")
          :: (if with_label then [Text (gettext "Enabled")] else []))
  else Elem "span"
         [("class", "badge badge-default"); ("title", gettext "Disabled");
          ("data-toggle", "tooltip")]
         (Raw (icon_markup "item-disabled")
          :: (if with_label then [Text (gettext "Disabled")] else [])).

(** Lines 205-209: the badge of one role; [has_role] is the item's method. *)
Definition render_role_badge (has_role : string -> bool) (role_name : string) : html :=
  if has_role role_name
  then Elem "span" [("class", "badge badge-success")]
         [Raw (icon_markup "item-enabled"); Text role_name;
          Raw (icon_markup ("role-" +:+ role_name))]
  else Elem "span" [("class", "badge badge-default")]
         [Raw (icon_markup "item-disabled"); Text role_name;
          Raw (icon_markup ("role-" +:+ role_name))].

(** Lines 203-212.  [with_label] is accepted and never read.  The
    separator follows every badge but the last ([loop.last]). *)
Fixpoint render_labels_role_list (role_list : list string) (has_role : string -> bool)
    (with_label : bool) : list html :=
  match role_list with
  | [] => []
  | role_name :: rest =>
      render_role_badge has_role role_name
      :: (if nonempty rest then [Raw "&nbsp;"] else [])
      ++ render_labels_role_list rest has_role with_label
  end.

End Widgets.

Arguments is_authenticated : clear implicits.
Arguments login : clear implicits.

Definition is_element (h : html) : bool :=
  match h with Elem _ _ _ => true | _ => false end.

Definition is_line_break (h : html) : bool :=
  match h with Elem "br" _ _ => true | _ => false end.

(** The [href] of a link. *)
Definition href_of (h : html) : option string :=
  match h with
  | Elem _ attrs _ => attr "href" attrs
  | _ => None
  end.

End SiteWidgets.

(** ** [mydojo/blueprints/design/templates/_macros_form.html] *)

Module MacrosForm.
Import Html MacrosSite.

(** One choice of a radio field. *)
Record subfield := Subfield {
  subfield_markup : string;     (* [{{ subfield }}] *)
  subfield_label : string;      (* [{{ subfield.label }}] *)
  checked : bool
}.

(** A form field, as far as the templates use it.  The field classes are
    not part of the sources at hand: the markup of the label and of the
    widget (for given keyword arguments) is kept opaque. *)
Record form_item := FormItem {
  label : string;
  label_text : string;
  widget : list (string * string) -> string;
  errors : list string;
  subfields : list subfield
}.

Section Forms.
Variable icon_markup : string -> string.
Variable gettext : string -> string.

(** Lines 111-115: one message per error, a line break after every
    message but the last.  The field macros below repeat this loop
    (lines 12-14, 31-33, 55-57 and 97-99). *)
Fixpoint render_form_errors (errs : list string) : list html :=
  match errs with
  | [] => []
  | err :: rest =>
      Elem "span" [("class", "help-block form-error")]
        [Raw (icon_markup "form-error"); Text err]
      :: (if nonempty rest then [Elem "br" [] []] else [])
      ++ render_form_errors rest
  end.

(** Lines 117-121. *)
Definition render_form_errors_labeled (item : form_item) : list html :=
  List.map (fun err =>
              Elem "div" []
                [Elem "span" [("class", "help-block form-error")]
                   [Raw (icon_markup "form-error");
                    Elem "strong" [] [Text (label_text item)];
                    Text err]])
           (errors item).

Definition form_group_class (form_item : form_item) : string :=
  "form-group" +:+ (if nonempty (errors form_item) then " has-error" else "").

(** Lines 7-17. *)
Definition render_form_item_default (form_item : form_item) (with_errors : bool) : html :=
  Elem "div" [("class", form_group_class form_item)]
    ([Raw (label form_item);
      Raw (widget form_item [("class_", "form-control")])]
     ++ (if with_errors then render_form_errors (errors form_item) else [])).

(** Lines 26-36. *)
Definition render_form_item_select (form_item : form_item) (with_errors : bool) : html :=
  Elem "div" [("class", form_group_class form_item)]
    ([Raw (label form_item);
      Raw (widget form_item
             [("class_", "form-control selectpicker");
              ("data-live-search", "true"); ("data-size", "10");
              ("data-selected-text-format", "count > 3");
              ("data-none-selected-text", gettext "Nothing selected")])]
     ++ (if with_errors then render_form_errors (errors form_item) else [])).

(** Lines 45-60. *)
Definition render_form_item_datetime (form_item : form_item) (ident : string)
    (with_errors : bool) : html :=
  Elem "div" [("class", form_group_class form_item)]
    ([Raw (label form_item);
      Elem "div" [("id", ident); ("class", "input-group date")]
        [Raw (widget form_item [("class_", "form-control")]);
         Elem "span" [("class", "input-group-addon")] [Raw (icon_markup "calendar")]]]
     ++ (if with_errors then render_form_errors (errors form_item) else [])).

(** Lines 69-74. *)
Definition render_form_item_static (form_item_label form_item_value : string) : html :=
  Elem "div" [("class", "form-group")]
    [Elem "label" [("class", "control-label")] [Text form_item_label];
     Elem "p" [("class", "form-control-static")] [Text form_item_value]].

(** Lines 89-93: one button of a radio field. *)
Definition render_radio_button (subfield : subfield) : html :=
  Elem "span"
    [("class", "btn btn-default" +:+ (if checked subfield then " active" else ""))]
    [Raw (subfield_markup subfield); Raw (subfield_label subfield)].

(** Lines 83-102. *)
Definition render_form_item_radiobutton (form_item : form_item) (with_errors : bool) : html :=
  Elem "div" [("class", form_group_class form_item)]
    ([Elem "div" [] [Raw (label form_item)];
      Elem "div" [("class", "btn-group btn-group-justified"); ("data-toggle", "buttons")]
        (List.map render_radio_button (subfields form_item))]
     ++ (if with_errors then render_form_errors (errors form_item) else [])).

End Forms.

End MacrosForm.

(** Sample menus used to evaluate the macros on concrete inputs.  The request
    is the name of the current endpoint; there is no context item. *)

Module MenuSamples.
Import Html MacrosSite.

Definition leaf (id endpoint : string) : menu_item string unit :=
  MenuItem id "view" false false (String.eqb endpoint)
    (fun _ => "/" +:+ id) (fun _ => "") (fun _ => "") (fun _ => id) (fun _ => []).

(** A submenu is active when one of its entries is. *)
Definition submenu (id : string) (subs : list (menu_item string unit)) : menu_item string unit :=
  MenuItem id "submenu" false false (fun req => existsb (fun s => is_active s req) subs)
    (fun _ => "#") (fun _ => "") (fun _ => "") (fun _ => id) (fun _ => subs).

(** A submenu that answers [is_active] by its own endpoint. *)
Definition section_menu (id endpoint : string) (subs : list (menu_item string unit))
    : menu_item string unit :=
  MenuItem id "submenu" false false (String.eqb endpoint)
    (fun _ => "#") (fun _ => "") (fun _ => "") (fun _ => id) (fun _ => subs).

Definition icon_markup (name : string) : string := "<i class='fas fa-" +:+ name +:+ "'></i>".
Definition gettext (s : string) : string := s.

Definition main_menu : menu string unit :=
  fun _ => [leaf "home" "home.index";
            submenu "admin" [leaf "users" "users.list"; leaf "groups" "groups.list"];
            section_menu "more" "more.index" []].

Definition action_menu : menu string unit :=
  fun _ => [leaf "edit" "users.update"; section_menu "more" "more.index" []].

End MenuSamples.

(** ** [bin/mydojo-init.sh]

    The script talks to PostgreSQL through [sudo -u postgres psql -c ...]
    and decides with [grep] on what the catalog queries print.  Both
    programs are outside the script, so they enter the model as an
    interface: what the two catalog queries print, what a command text
    handed to [psql -c] does to the database, and the exit status of
    [grep].  The commands are built by interpolating the variables into SQL
    text; the model records the text. *)

Module MydojoInit.

Inductive query :=
| SelectUsename      (* SELECT usename FROM pg_catalog.pg_user; *)
| SelectDatname.     (* SELECT datname FROM pg_catalog.pg_database; *)

(** The text handed to [psql -c]. *)
Definition query_text (q : query) : string :=
  match q with
  | SelectUsename => "SELECT usename FROM pg_catalog.pg_user;"
  | SelectDatname => "SELECT datname FROM pg_catalog.pg_database;"
  end.

(** Lines 40, 51 and 53: the three command texts. *)
Definition create_user_sql (USER PASS : string) : string :=
  "CREATE USER " +:+ USER +:+ " WITH PASSWORD '" +:+ PASS +:+ "';".

Definition create_database_sql (dbname : string) : string :=
  "CREATE DATABASE " +:+ dbname +:+ ";".

Definition grant_all_sql (dbname USER : string) : string :=
  "GRANT ALL PRIVILEGES ON DATABASE " +:+ dbname +:+ " TO " +:+ USER +:+ ";".

(** What a run does, in order. *)
Inductive event :=
| Echo (line : string)
| Query (q : query)
| Exec (command : string).

(** [${n:-default}], with [args] the positional parameters from [$1] on:
    the default is taken when the parameter is unset or empty. *)
Definition positional (args : list string) (n : nat) (default : string) : string :=
  match args !! (n - 1) with
  | Some v => if String.eqb v "" then default else v
  | None => default
  end.

Section Script.
Variable DB : Type.
(** Lines printed by [psql -c] for a catalog query. *)
Variable answer : query -> DB -> list string.
(** Effect of [psql -c] with a command text. *)
Variable exec : string -> DB -> DB.
(** [... | grep $X > /dev/null] followed by [$?]: [grep X lines] is [true]
    when grep exits with status 0 on the input [lines], [X] being the value
    of the variable.  The variable is not quoted, so the shell splits its
    value into words, and grep reads the first word as a pattern and any
    further word as the name of a file to search instead of its input;
    what the status is for a given value is grep's business.  (The files
    of the machine do not change during a run.) *)
Variable grep : string -> list string -> bool.

(** The state threaded through the script: the database and what was done. *)
Record shell := Shell { db : DB; trace : list event }.

Definition start (d : DB) : shell := {| db := d; trace := [] |}.

Definition echo (line : string) (s : shell) : shell :=
  {| db := db s; trace := trace s ++ [Echo line] |}.

Definition psql_query (q : query) (s : shell) : list string * shell :=
  (answer q (db s), {| db := db s; trace := trace s ++ [Query q] |}).

Definition psql_exec (command : string) (s : shell) : shell :=
  {| db := exec command (db s); trace := trace s ++ [Exec command] |}.

(** Lines 37-41. *)
Definition create_user (USER PASS : string) (s : shell) : shell :=
  let '(out, s) := psql_query SelectUsename s in
  if negb (grep USER out)
  then
    let s := echo ("PostgreSQL: Creating user '" +:+ USER +:+ "'") s in
    psql_exec (create_user_sql USER PASS) s
  else s.

(** Lines 48-54: the body of the loop. *)
Definition create_database (USER dbname : string) (s : shell) : shell :=
  let '(out, s) := psql_query SelectDatname s in
  if negb (grep dbname out)
  then
    let s := echo ("PostgreSQL: Creating database '" +:+ dbname +:+ "'") s in
    let s := psql_exec (create_database_sql dbname) s in
    let s := echo ("PostgreSQL: Granting access for user '" +:+ USER
                   +:+ "' to database '" +:+ dbname +:+ "'") s in
    psql_exec (grant_all_sql dbname USER) s
  else s.

(** The whole script, lines 28-55. *)
Definition mydojo_init (args : list string) (s : shell) : shell :=
  let USER := positional args 1 "mydojo" in
  let PASS := positional args 2 "mydojo" in
  let DBNM := positional args 3 "mydojo" in
  let s := create_user USER PASS s in
  fold_left (fun s dbname => create_database USER dbname s) [DBNM; DBNM +:+ "_test"] s.

(** The command texts of a trace, in order. *)
Definition statements (t : list event) : list string :=
  omap (fun e => match e with Exec command => Some command | _ => None end) t.

End Script.

Arguments Shell {DB}.
Arguments db {DB}.
Arguments trace {DB}.
Arguments start {DB}.

(** *** What grep does with a plain word

    [contains word line]: [word] occurs somewhere in [line]. *)
Fixpoint contains (word line : string) : bool :=
  String.prefix word line ||
  match line with
  | EmptyString => false
  | String _ rest => contains word rest
  end.

(** Letters, digits and the underscore. *)
Definition word_char (c : ascii) : bool :=
  let n := nat_of_ascii c in
  (Nat.leb 48 n && Nat.leb n 57) || (Nat.leb 65 n && Nat.leb n 90)
  || (Nat.leb 97 n && Nat.leb n 122) || Nat.eqb n 95.

Fixpoint word_chars (s : string) : bool :=
  match s with
  | EmptyString => true
  | String c rest => word_char c && word_chars rest
  end.

(** A plain word: not empty, and made of such characters only.  The shell
    leaves a plain word as one word, and as a pattern it stands for itself. *)
Definition plain_word (s : string) : bool :=
  negb (String.eqb s "") && word_chars s.

(** Word splitting of an unquoted expansion, at blanks, tabs and newlines. *)
Definition blank (c : ascii) : bool :=
  Ascii.eqb c " " || Ascii.eqb c "009" || Ascii.eqb c "010".

Fixpoint split_blanks (s : string) : list string :=
  match s with
  | EmptyString => [EmptyString]
  | String c rest =>
      if blank c then EmptyString :: split_blanks rest
      else match split_blanks rest with
           | w :: ws => String c w :: ws
           | [] => [String c EmptyString]
           end
  end.

Definition fields (s : string) : list string :=
  List.filter (fun w => negb (String.eqb w "")) (split_blanks s).

(** *** A sample environment

    [grep] as it answers in the samples below.  A value that is one plain
    word is searched for in every line.  A value of several words makes
    grep take the first as the pattern and the others as files to read, in
    the directory [/]; the samples have no such files, so grep fails.  No
    sample uses a value of another kind. *)
Definition sample_grep (X : string) (lines : list string) : bool :=
  match fields X with
  | [w] => plain_word w && existsb (contains w) lines
  | _ => false
  end.

(** A small PostgreSQL catalog to run the script against: role names,
    database names and the privileges granted.  [psql] prints a header, a
    rule, one row per name and the number of rows. *)
Record catalog := Catalog {
  roles : list string;
  databases : list string;
  grants : list (string * string)
}.

Definition mem (x : string) (l : list string) : bool := existsb (String.eqb x) l.

Definition rows (names : list string) : list string :=
  List.map (fun n => " " +:+ n) names.

Definition footer (names : list string) : list string :=
  ["(" +:+ NilEmpty.string_of_uint (Nat.to_uint (length names))
       +:+ (if Nat.eqb (length names) 1 then " row)" else " rows)");
   ""].

Definition catalog_answer (q : query) (c : catalog) : list string :=
  match q with
  | SelectUsename => [" usename"; "----------"] ++ rows (roles c) ++ footer (roles c)
  | SelectDatname => [" datname"; "-----------"] ++ rows (databases c) ++ footer (databases c)
  end.

(** Reading the three commands back, for names that are plain words. *)
Fixpoint strip_prefix (p s : string) : option string :=
  match p with
  | EmptyString => Some s
  | String a p' =>
      match s with
      | String b s' => if Ascii.eqb a b then strip_prefix p' s' else None
      | EmptyString => None
      end
  end.

Fixpoint upto (stop : ascii) (s : string) : string :=
  match s with
  | EmptyString => EmptyString
  | String c rest => if Ascii.eqb c stop then EmptyString else String c (upto stop rest)
  end.

Fixpoint after (stop : ascii) (s : string) : string :=
  match s with
  | EmptyString => EmptyString
  | String c rest => if Ascii.eqb c stop then rest else after stop rest
  end.

(** Creating a name that exists fails and leaves the catalog as it was; so
    does a command the server cannot read. *)
Definition catalog_exec (command : string) (c : catalog) : catalog :=
  match strip_prefix "CREATE USER " command with
  | Some rest =>
      let user := upto " " rest in
      match strip_prefix "WITH PASSWORD '" (after " " rest) with
      | Some _ =>
          if mem user (roles c) || negb (plain_word user) then c
          else {| roles := roles c ++ [user]; databases := databases c;
                  grants := grants c |}
      | None => c
      end
  | None =>
  match strip_prefix "CREATE DATABASE " command with
  | Some rest =>
      let dbname := upto ";" rest in
      if mem dbname (databases c) || negb (plain_word dbname) then c
      else {| roles := roles c; databases := databases c ++ [dbname]; grants := grants c |}
  | None =>
  match strip_prefix "GRANT ALL PRIVILEGES ON DATABASE " command with
  | Some rest =>
      let dbname := upto " " rest in
      match strip_prefix "TO " (after " " rest) with
      | Some grantee =>
          let user := upto ";" grantee in
          if mem dbname (databases c) && mem user (roles c)
          then {| roles := roles c; databases := databases c;
                  grants := grants c ++ [(dbname, user)] |}
          else c
      | None => c
      end
  | None => c
  end end end.

(** A fresh cluster, one on which the script has already run, and one that
    holds a role whose name has a blank in it. *)
Definition fresh_cluster : catalog :=
  {| roles := ["postgres"];
     databases := ["postgres"; "template0"; "template1"];
     grants := [] |}.

Definition provisioned_cluster : catalog :=
  {| roles := ["postgres"; "mydojo"];
     databases := ["postgres"; "template0"; "template1"; "mydojo"; "mydojo_test"];
     grants := [("mydojo", "mydojo"); ("mydojo_test", "mydojo")] |}.

Definition spaced_cluster : catalog :=
  {| roles := ["postgres"; "my dojo"];
     databases := ["postgres"; "template0"; "template1"; "mydojo"; "mydojo_test"];
     grants := [("mydojo", "my dojo"); ("mydojo_test", "my dojo")] |}.

End MydojoInit.

(** ** [bin/mydojo.wsgi] *)

Module Wsgi.

(** Keyword arguments of a Python call, in the order written. *)
Definition kwargs := list (string * string).

Definition kwarg (name : string) (kw : kwargs) : option string :=
  snd <$> List.find (fun '(k, _) => String.eqb k name) kw.

Section Entry.
Variable App : Type.
(** [mydojo.create_app_full], which the entry point imports. *)
Variable create_app_full : kwargs -> App.

(** Lines 19-23. *)
Definition application : App :=
  create_app_full
    [("config_object", "mydojo.config.ProductionConfig");
     ("config_file", "/etc/mydojo/mydojo.conf");
     ("config_env", "FLASK_CONFIG_FILE")].

End Entry.

End Wsgi.

(** ** [Gruntfile.js]

    Paths are lists of segments.  A file system is a finite map from the
    paths of its files to their contents; directories are implicit. *)

Module Gruntfile.

Definition path := list string.

(** [paths_project] (lines 27-32). *)
Definition web_static : path := ["mydojo"; "static"].
Definition web_templates : path := ["mydojo"; "templates"].
Definition web_design_static : path := ["mydojo"; "blueprints"; "design"; "static"].
Definition web_design_templates : path := ["mydojo"; "blueprints"; "design"; "templates"].

Definition vendor : path := web_design_static ++ ["vendor"].
Definition node_modules : path := ["node_modules"].

(** [clean.vendor.src] (lines 38-42). *)
Definition clean_vendor_src : list path := [vendor].

(** The two source patterns in use. *)
Inductive glob :=
| Children      (* './*'  *)
| Descendants.  (* './**' *)

(** One entry of [copy.vendor.files].  Every entry sets [expand] and
    [flatten], so a matched file lands in [dest] under its base name. *)
Record file_mapping := FileMapping { cwd : path; src : glob; dest : path }.

(** [copy.vendor.files] (lines 64-118). *)
Definition copy_vendor_files : list file_mapping :=
  [ {| cwd := node_modules ++ ["bootstrap"; "dist"; "css"]; src := Children;
       dest := vendor ++ ["bootstrap"; "css"] |};
    {| cwd := node_modules ++ ["bootstrap"; "dist"; "js"]; src := Children;
       dest := vendor ++ ["bootstrap"; "js"] |};
    {| cwd := node_modules ++ ["@fortawesome"; "fontawesome-pro"; "css"]; src := Descendants;
       dest := vendor ++ ["font-awesome"; "css"] |};
    {| cwd := node_modules ++ ["@fortawesome"; "fontawesome-pro"; "js"]; src := Descendants;
       dest := vendor ++ ["font-awesome"; "js"] |};
    {| cwd := node_modules ++ ["@fortawesome"; "fontawesome-pro"; "webfonts"];
       src := Descendants;
       dest := vendor ++ ["font-awesome"; "webfonts"] |};
    {| cwd := node_modules ++ ["jquery"; "dist"]; src := Descendants;
       dest := vendor ++ ["jquery"; "js"] |};
    {| cwd := node_modules ++ ["popper.js"; "dist"]; src := Descendants;
       dest := vendor ++ ["popper"; "js"] |} ].

(** The task list registered as [webui] (lines 134-138). *)
Definition webui_tasks : list string :=
  ["shell:yarn_install"; "shell:pybabel"; "clean:vendor"; "copy:vendor"].

(** The task list registered as [default] (lines 139-143). *)
Definition default_tasks : list string := ["webui"].

(** [strip_prefix dir p]: the rest of [p] below [dir]. *)
Fixpoint strip_prefix (dir p : path) : option path :=
  match dir, p with
  | [], _ => Some p
  | a :: dir', b :: p' => if String.eqb a b then strip_prefix dir' p' else None
  | _ :: _, [] => None
  end.

(** A pattern does not match names that start with a dot. *)
Definition hidden (name : string) : bool := String.prefix "." name.

Definition glob_matches (g : glob) (rest : path) : bool :=
  forallb (fun name => negb (hidden name)) rest &&
  match g with
  | Children => Nat.eqb (length rest) 1
  | Descendants => Nat.ltb 0 (length rest)
  end.

(** Where a mapping puts the file at [p], if it matches it. *)
Definition destination (m : file_mapping) (p : path) : option path :=
  match strip_prefix (cwd m) p with
  | Some rest =>
      if glob_matches (src m) rest
      then match last rest with
           | Some base => Some (dest m ++ [base])
           | None => None
           end
      else None
  | None => None
  end.

Section Tasks.
Variable content : Type.

Local Abbreviation fs := (gmap path content).

(** [grunt-contrib-clean]: remove a path and everything below it. *)
Definition clean_path (target : path) (f : fs) : fs :=
  filter (fun kv => ~ target `prefix_of` kv.1) f.

Definition clean (targets : list path) (f : fs) : fs :=
  foldr clean_path f targets.

(** The copies one mapping asks for, read off the file system.  The files
    of a mapping are listed in the order of the map, which need not be the
    order in which grunt expands the pattern; the order decides only which
    of two files with the same base name is kept. *)
Definition expand_mapping (f : fs) (m : file_mapping) : list (path * content) :=
  omap (fun kv => (fun d => (d, kv.2)) <$> destination m kv.1) (map_to_list f).

(** [grunt-contrib-copy]: the patterns are expanded first, then each file
    is written, a later one over an earlier one. *)
Definition copy (files : list file_mapping) (f : fs) : fs :=
  fold_left (fun acc dc => <[dc.1 := dc.2]> acc)
            (List.concat (List.map (expand_mapping f) files)) f.

(** The two shell commands are outside the Gruntfile: [yarn install] and
    [make pybabel-compile].  [None] is a failed command, which stops Grunt. *)
Variable yarn_install : fs -> option fs.
Variable pybabel_compile : fs -> option fs.

Definition run_task (name : string) (f : fs) : option fs :=
  if String.eqb name "shell:yarn_install" then yarn_install f
  else if String.eqb name "shell:pybabel" then pybabel_compile f
  else if String.eqb name "clean:vendor" then Some (clean clean_vendor_src f)
  else if String.eqb name "copy:vendor" then Some (copy copy_vendor_files f)
  else None.

(** Tasks run in order; the first failure stops the run. *)
Fixpoint run_tasks (names : list string) (f : fs) : option fs :=
  match names with
  | [] => Some f
  | name :: rest =>
      match run_task name f with
      | Some f' => run_tasks rest f'
      | None => None
      end
  end.

Definition webui (f : fs) : option fs := run_tasks webui_tasks f.
Definition default (f : fs) : option fs := webui f.

End Tasks.

(** [tgt.replace(/\.json$/, '.min.json')]: the pattern is anchored at the
    end of the string, so it matches where the rest of the string is
    exactly [.json]. *)
Fixpoint replace_json_suffix (s : string) : string :=
  if String.eqb s ".json" then ".min.json"
  else match s with
       | EmptyString => EmptyString
       | String c rest => String c (replace_json_suffix rest)
       end.

Section Minify.
(** The files are outside the function, which reaches them through
    [grunt.file]: [readJSON] throws when the file cannot be read or does
    not hold JSON, [write] throws when the target cannot be written.  File
    names are handed over as the strings they are. *)
Variables FS content json : Type.
Variable readJSON : string -> FS -> option json.
Variable write : string -> content -> FS -> option FS.
Variable stringify : json -> content.

(** Lines 11-19.  The result is the file system after the write and the
    line logged; [None] is an exception.  (The assignment to [src_content]
    has no declaration and so also sets a global variable of that name.) *)
Definition minify_json_file (src tgt : string) (f : FS) : option (FS * string) :=
  match readJSON src f with
  | None => None
  | Some src_content =>
      let tgt := replace_json_suffix tgt in
      match write tgt (stringify src_content) f with
      | None => None
      | Some f' =>
          Some (f', "Minified JSON file '" +:+ src +:+ "' to '" +:+ tgt +:+ "'")
      end
  end.

End Minify.

(** A small project tree: two installed packages and a stale vendored file. *)
Definition sample_tree : gmap path string :=
  <[ ["node_modules"; "jquery"; "dist"; "jquery.min.js"] := "jquery" ]>
  (<[ ["node_modules"; "bootstrap"; "dist"; "css"; "bootstrap.min.css"] := "bootstrap" ]>
  (<[ ["mydojo"; "blueprints"; "design"; "static"; "vendor"; "old"; "stale.js"] := "stale" ]>
  (<[ ["mydojo"; "blueprints"; "design"; "static"; "css"; "mydojo.css"] := "site" ]> ∅))).

End Gruntfile.

(** ** [mydojo/templates/mydojo-main.js]

    Objects live in a heap and are passed by reference.  An object is a
    record of its own properties with their attributes, its prototype slot
    and its extensible flag.  Assignment follows ECMAScript's [[Set]] for
    ordinary objects in non-strict code (the file has no strict directive):
    the property is looked for on the object and then along the prototype
    chain; a writable data property, or none at all, lets the assignment
    create or update an own data property of the object, provided the
    object may still take one; a property that is not writable, or an
    accessor without a setter, makes the assignment do nothing; an accessor
    with a setter calls the setter.  [Object.prototype] is taken as the
    language defines it, with its accessor [__proto__] (ECMAScript,
    Annex B).  Setters, and objects that are not ordinary (arrays, proxies,
    built-in objects other than [Object.prototype]), run code from outside
    the module: what they do is a parameter of the model. *)

Module MyDojo.

Definition loc := positive.

Inductive value :=
| VUndefined
| VNull
| VBool (b : bool)
| VNum (n : Z)
| VStr (s : string)
| VObj (l : loc)             (* a reference to an object of the heap *)
| VBuiltin (name : string).  (* a built-in object or function, by name *)

#[global] Instance value_eq_dec : EqDecision value.
Proof. solve_decision. Defined.

Record object := Object {
  own : gmap string value;   (* own data properties *)
  proto : value;             (* the prototype: null or an object *)
  extensible : bool;         (* may the object take new properties? false
                                after preventExtensions, seal or freeze *)
  readonly : list string;    (* own properties an assignment cannot change:
                                data properties that are not writable and
                                accessors without a setter *)
  setters : list string;     (* own accessors that have a setter *)
  ordinary : bool            (* false for arrays, proxies and the like *)
}.

Definition Object_prototype : value := VBuiltin "Object.prototype".

(** The object an object literal creates. *)
Definition object_literal (props : gmap string value) : object :=
  {| own := props; proto := Object_prototype; extensible := true;
     readonly := []; setters := []; ordinary := true |}.

(** Normal completion or a thrown exception. *)
Inductive completion (A : Type) :=
| Normal (a : A)
| Throw (error : string).
Arguments Normal {A}.
Arguments Throw {A}.

(** The function-valued properties of [Object.prototype]. *)
Definition Object_prototype_methods : list string :=
  ["__defineGetter__"; "__defineSetter__"; "__lookupGetter__"; "__lookupSetter__";
   "hasOwnProperty"; "isPrototypeOf"; "propertyIsEnumerable";
   "toLocaleString"; "toString"; "valueOf"].

(** A read that reaches [Object.prototype], for a receiver whose prototype
    slot holds [receiver_proto]. *)
Definition Object_prototype_get (receiver_proto : value) (name : string) : value :=
  if String.eqb name "__proto__" then receiver_proto
  else if String.eqb name "constructor" then VBuiltin "Object"
  else if existsb (String.eqb name) Object_prototype_methods
       then VBuiltin ("Object.prototype." +:+ name)
       else VUndefined.

(** *** Assignment *)

Definition mem (x : string) (l : list string) : bool := existsb (String.eqb x) l.

(** What an assignment finds under a name. *)
Inductive slot :=
| Absent                     (* no property on the object or its chain *)
| Writable                   (* a writable data property *)
| ReadOnly                   (* a property that ignores assignment *)
| ProtoAccessor              (* [__proto__] of [Object.prototype] *)
| Foreign (holder : value).  (* a setter, or an object that is not ordinary *)

(** The properties of [Object.prototype] are writable data properties, but
    for the accessor [__proto__]. *)
Definition builtin_slot (b : string) (k : string) : slot :=
  if String.eqb b "Object.prototype"
  then if String.eqb k "__proto__" then ProtoAccessor
       else if String.eqb k "constructor" || mem k Object_prototype_methods
            then Writable
            else Absent
  else Foreign (VBuiltin b).

(** The first property named [k] from the object [o] at [holder] upwards. *)
Fixpoint governing (h : gmap loc object) (fuel : nat) (holder : value) (o : object)
    (k : string) : slot :=
  if negb (ordinary o) then Foreign holder
  else if mem k (setters o) then Foreign holder
  else if mem k (readonly o) then ReadOnly
  else match own o !! k with
       | Some _ => Writable
       | None =>
           match proto o with
           | VObj l =>
               match fuel with
               | O => Absent
               | S n =>
                   match h !! l with
                   | Some o' => governing h n (VObj l) o' k
                   | None => Absent
                   end
               end
           | VBuiltin b => builtin_slot b k
           | _ => Absent
           end
       end.

(** [on_chain h fuel target v]: [v] is the object at [target] or has it on
    its prototype chain. *)
Fixpoint on_chain (h : gmap loc object) (fuel : nat) (target : loc) (v : value) : bool :=
  match v with
  | VObj l =>
      if Pos.eqb l target then true
      else match fuel with
           | O => false
           | S n =>
               match h !! l with
               | Some o => on_chain h n target (proto o)
               | None => false
               end
           end
  | _ => false
  end.

Definition is_object_or_null (v : value) : bool :=
  match v with
  | VNull | VObj _ | VBuiltin _ => true
  | _ => false
  end.

Definition set_own (k : string) (v : value) (o : object) : object :=
  {| own := <[k := v]> (own o); proto := proto o; extensible := extensible o;
     readonly := readonly o; setters := setters o; ordinary := ordinary o |}.

Definition set_proto (v : value) (o : object) : object :=
  {| own := own o; proto := v; extensible := extensible o;
     readonly := readonly o; setters := setters o; ordinary := ordinary o |}.

Section Builder.
(** [host_set holder l k v h]: the assignment [base[k] = v], [base] being
    the object at [l], when it ends in a setter of [holder] or in an object
    [holder] that is not ordinary. *)
Variable host_set : value -> loc -> string -> value -> gmap loc object
                    -> completion (gmap loc object).

(** [base[k] = v] in non-strict code, [base] being the object at [l]. *)
Definition set_member (l : loc) (k : string) (v : value) (h : gmap loc object)
    : completion (gmap loc object) :=
  match h !! l with
  | None => Throw "TypeError"
  | Some o =>
      match governing h (size h) (VObj l) o k with
      | Foreign holder => host_set holder l k v h
      | ReadOnly => Normal h
      | ProtoAccessor =>
          if is_object_or_null v
          then if bool_decide (v = proto o) then Normal h
               else if negb (extensible o) then Throw "TypeError"
               else if on_chain h (size h) l v then Throw "TypeError"
               else Normal (<[l := set_proto v o]> h)
          else Normal h
      | Writable | Absent =>
          match own o !! k with
          | Some _ => Normal (<[l := set_own k v o]> h)
          | None =>
              if extensible o then Normal (<[l := set_own k v o]> h) else Normal h
          end
      end
  end.

(** A rule is an array of strings; [r[0]] names the property.  Used as a
    property key, a missing element reads [undefined]. *)
Definition rule := list string.

Definition rule_key (r : rule) : string :=
  match r with
  | k :: _ => k
  | [] => "undefined"
  end.

(** [rules.forEach(body)], stopping at the first exception. *)
Fixpoint forEach (body : rule -> gmap loc object -> completion (gmap loc object))
    (rules : list rule) (h : gmap loc object) : completion (gmap loc object) :=
  match rules with
  | [] => Normal h
  | r :: rest =>
      match body r h with
      | Normal h' => forEach body rest h'
      | Throw e => Throw e
      end
  end.

(** Lines 11-23.  The closure keeps the reference it was given. *)
Definition _build_param_builder (skeleton : loc) (rules : list rule)
    : value -> gmap loc object -> completion (loc * gmap loc object) :=
  let _skeleton := skeleton in
  let _rules := rules in
  fun value h =>
    let _result := _skeleton in
    match forEach (fun r => set_member _result (rule_key r) value) _rules h with
    | Normal h' => Normal (_result, h')
    | Throw e => Throw e
    end.

End Builder.

(** An object all of whose properties, its own and those it inherits, are
    writable data properties: an ordinary object without read-only
    properties and without setters, whose prototype chain consists of such
    objects and ends in [Object.prototype] or in null. *)
Fixpoint plain_chain (h : gmap loc object) (fuel : nat) (o : object) : bool :=
  ordinary o
  && match readonly o, setters o with [], [] => true | _, _ => false end
  && match proto o with
     | VNull => true
     | VBuiltin b => String.eqb b "Object.prototype"
     | VObj l =>
         match fuel with
         | O => false
         | S n =>
             match h !! l with
             | Some o' => plain_chain h n o'
             | None => false
             end
         end
     | _ => false
     end.

(** A plain object is such an object that can still take new properties. *)
Definition plain_object (h : gmap loc object) (o : object) : bool :=
  extensible o && plain_chain h (size h) o.

(** *** The registry

    [get_csags] hands out the registry itself, so its properties are
    whatever the callers have put there: a data property, or an accessor
    whose getter runs on every read.  A read that finds no own property
    continues in the prototype chain. *)
Inductive entry :=
| DataEntry (v : value)
| AccessorEntry (get : completion value).
    (* what the getter does when called; [Normal VUndefined] without a getter *)

Record registry := Registry {
  entries : gmap string entry;            (* own properties *)
  inherited : string -> completion value  (* a read through the prototype chain *)
}.

(** A read that ends in the [Object.prototype] of the language. *)
Definition Object_prototype_read (name : string) : completion value :=
  Normal (Object_prototype_get Object_prototype name).

(** [o[name]]. *)
Definition get_member (o : registry) (name : string) : completion value :=
  match entries o !! name with
  | Some (DataEntry v) => Normal v
  | Some (AccessorEntry get) => get
  | None => inherited o name
  end.

(** Line 25: the registry starts as an empty object literal. *)
Definition _csag : registry := {| entries := ∅; inherited := Object_prototype_read |}.

(** Lines 29-31. *)
Definition get_csags (_csag : registry) : registry := _csag.

(** Lines 33-40. *)
Definition get_csag (_csag : registry) (name : string) : completion value :=
  match get_member _csag name with
  | Normal v => Normal v
  | Throw err => Normal VNull
  end.

(** *** Samples

    No foreign code: the sample heaps hold ordinary objects without
    setters. *)
Definition no_host : value -> loc -> string -> value -> gmap loc object
                     -> completion (gmap loc object) :=
  fun _ _ _ _ h => Normal h.

(** An empty skeleton at location 1. *)
Definition sample_heap : gmap loc object := {[ 1%positive := object_literal ∅ ]}.

(** A frozen skeleton [{ip: "x"}] at location 1. *)
Definition frozen_heap : gmap loc object :=
  {[ 1%positive := {| own := {[ "ip" := VStr "x" ]}; proto := Object_prototype;
                      extensible := false; readonly := ["ip"]; setters := [];
                      ordinary := true |} ]}.

(** A registry in which a caller has stored a getter that throws. *)
Definition guarded_registry : registry :=
  {| entries := {[ "secret" := AccessorEntry (Throw "Error") ]};
     inherited := Object_prototype_read |}.

End MyDojo.

(* ===================================================================== *)
(** * Part II: properties                                                 *)
(* ===================================================================== *)

(** ** The navigation macros *)

Section MacrosSiteProperties.
Import Html MacrosSite.

Context {request ctx : Type}.
Variable icon_markup : string -> string.
Variable gettext : string -> string.

Local Abbreviation item := (menu_item request ctx).
Local Abbreviation render_item := (@render_navbar_item request ctx icon_markup gettext).
Local Abbreviation render_subitem := (@render_navbar_subitem request ctx icon_markup gettext).
Local Abbreviation render_main := (@render_navbar_main request ctx icon_markup gettext).

(** Decide [has_class] on an element whose [class] attribute comes first and
    is a literal. *)
Ltac eval_has_class :=
  repeat match goal with
  | |- context [has_class ?c (Elem ?t (("class", ?v) :: ?r) ?ch)] =>
      let b := eval vm_compute in (existsb (String.eqb c) (tokens v)) in
      change (has_class c (Elem t (("class", v) :: r) ch)) with b
  end.

Ltac eval_is_container :=
  repeat match goal with
  | |- context [is_menu_container (Elem ?t (("class", ?v) :: ?r) ?ch)] =>
      let b := eval vm_compute in
        (existsb (String.eqb "navbar-nav") (tokens v)
         || existsb (String.eqb "dropdown-menu") (tokens v)) in
      change (is_menu_container (Elem t (("class", v) :: r) ch)) with b
  end.

Lemma navbar_entries_main (m : menu request ctx) (req : request) :
  navbar_entries (render_main m req) = List.map (render_item req) (m None).
Proof.
  unfold navbar_entries, render_navbar_main. cbn. apply app_nil_r.
Qed.

Lemma item_active_class (req : request) (mi : item) :
  has_class "active" (render_item req mi) = negb (is_submenu mi) && is_active mi req.
Proof.
  unfold render_navbar_item, has_class, classes. cbn.
  destruct (is_submenu mi); [reflexivity|].
  destruct (is_active mi req); reflexivity.
Qed.

Lemma item_dropdown_class (req : request) (mi : item) :
  has_class "dropdown" (render_item req mi) = is_submenu mi.
Proof.
  unfold render_navbar_item, has_class, classes. cbn.
  destruct (is_submenu mi); [reflexivity|].
  destruct (is_active mi req); reflexivity.
Qed.

Lemma subitem_active_class (req : request) (sub : item) :
  has_class "active" (render_subitem req sub) = is_active sub req.
Proof.
  unfold render_navbar_subitem, has_class, classes. cbn.
  destruct (is_active sub req); reflexivity.
Qed.

Lemma item_dropdown_containers (req : request) (mi : item) :
  dropdown_containers (render_item req mi) =
    if is_submenu mi && nonempty (get_entries mi None)
    then [Elem "div"
            [("class", "dropdown-menu");
             ("aria-labelledby", "navbar-dropdown-" +:+ ident mi)]
            (List.map (render_subitem req) (get_entries mi None))]
    else [].
Proof.
  unfold dropdown_containers, render_navbar_item. cbn.
  destruct (is_submenu mi); cbn.
  - destruct (nonempty (get_entries mi None)); reflexivity.
  - reflexivity.
Qed.

Lemma item_dropdown_links (req : request) (mi : item) :
  dropdown_links (render_item req mi) =
    if is_submenu mi then List.map (render_subitem req) (get_entries mi None) else [].
Proof.
  unfold dropdown_links. rewrite item_dropdown_containers.
  destruct (is_submenu mi); cbn; [|reflexivity].
  destruct (get_entries mi None); cbn; [reflexivity|].
  now rewrite app_nil_r.
Qed.

Lemma label_no_active (mi : item) (b : bool) :
  list_sum (List.map (count_class "active") (navbar_label icon_markup gettext mi b)) = 0.
Proof.
  unfold navbar_label.
  destruct (truthy (get_icon mi None)), (truthy (get_title mi None)),
    (resptitle mi), b; reflexivity.
Qed.

Lemma label_depth (mi : item) (b : bool) :
  list_max (List.map menu_depth (navbar_label icon_markup gettext mi b)) = 0.
Proof.
  unfold navbar_label.
  destruct (truthy (get_icon mi None)), (truthy (get_title mi None)),
    (resptitle mi), b; reflexivity.
Qed.

Lemma subitem_count_active (req : request) (sub : item) :
  count_class "active" (render_subitem req sub) = if is_active sub req then 1 else 0.
Proof.
  pose proof (subitem_active_class req sub) as Hc.
  unfold render_navbar_subitem in *. cbn [count_class].
  rewrite Hc, label_no_active. destruct (is_active sub req); reflexivity.
Qed.

Lemma subitems_count_active (req : request) (subs : list item) :
  list_sum (List.map (count_class "active") (List.map (render_subitem req) subs))
  = length (List.filter (fun sub => is_active sub req) subs).
Proof.
  induction subs as [|sub subs IH]; [reflexivity|].
  unfold list_sum in *. cbn [List.map fold_right List.filter].
  rewrite subitem_count_active, IH.
  destruct (is_active sub req); reflexivity.
Qed.

Lemma subitem_depth (req : request) (sub : item) :
  menu_depth (render_subitem req sub) = 0.
Proof.
  unfold render_navbar_subitem. cbn [menu_depth]. rewrite label_depth.
  destruct (is_active sub req); reflexivity.
Qed.

Lemma subitems_depth (req : request) (subs : list item) :
  list_max (List.map menu_depth (List.map (render_subitem req) subs)) = 0.
Proof.
  induction subs as [|sub subs IH]; [reflexivity|].
  unfold list_max in *. cbn [List.map fold_right].
  rewrite subitem_depth, IH. reflexivity.
Qed.

Lemma item_count_active (req : request) (mi : item) :
  count_class "active" (render_item req mi) = marked_active req mi.
Proof.
  pose proof (item_active_class req mi) as Hc.
  unfold render_navbar_item in *. cbn [count_class]. rewrite Hc.
  unfold marked_active, list_sum. cbn [List.map fold_right].
  destruct (is_submenu mi); cbn [negb andb].
  - cbn [count_class]. rewrite label_no_active.
    destruct (get_entries mi None) as [|sub subs] eqn:He; [reflexivity|].
    cbn [nonempty List.map fold_right count_class].
    pose proof (subitems_count_active req (sub :: subs)) as Hs.
    cbn [List.map] in Hs. rewrite Hs.
    generalize (length (List.filter (fun sub0 : item => is_active sub0 req) (sub :: subs))).
    intros n. eval_has_class. cbn. lia.
  - cbn [count_class]. rewrite label_no_active.
    destruct (is_active mi req); reflexivity.
Qed.

Lemma item_depth (req : request) (mi : item) :
  menu_depth (render_item req mi) <= 1.
Proof.
  unfold render_navbar_item.
  destruct (is_submenu mi).
  - cbn [menu_depth andb]. unfold list_max. cbn [List.map fold_right menu_depth].
    eval_is_container. rewrite label_depth.
    destruct (get_entries mi None) as [|sub subs]; [cbn; lia|].
    cbn [nonempty List.map fold_right menu_depth]. eval_is_container.
    pose proof (subitems_depth req (sub :: subs)) as Hs.
    cbn [List.map] in Hs. rewrite Hs. cbn. lia.
  - destruct (is_active mi req);
      cbn [menu_depth andb]; unfold list_max; cbn [List.map fold_right menu_depth app];
      eval_is_container; rewrite label_depth; cbn; lia.
Qed.

(** C1, as amended.  For every entry of the main menu, the rendered [li]
    carries the class [active] exactly when the entry is not of type
    [submenu] and its [is_active] predicate holds for the request, and it
    carries the class [dropdown] exactly when the entry is of type
    [submenu]; every sub-entry link rendered below a submenu carries
    [active] exactly when the sub-entry's own [is_active] holds; nothing
    else inside the entry is marked.  A top-level submenu is never marked
    active, whatever [is_active] answers for it: it gets the class
    [dropdown] instead. *)
Theorem navbar_active_marking (m : menu request ctx) (req : request) (i : nat) (mi : item) :
  m None !! i = Some mi ->
  exists li,
    navbar_entries (render_main m req) !! i = Some li
    /\ has_class "active" li = negb (is_submenu mi) && is_active mi req
    /\ has_class "dropdown" li = is_submenu mi
    /\ dropdown_links li =
         (if is_submenu mi then List.map (render_subitem req) (get_entries mi None) else [])
    /\ (forall j sub, is_submenu mi = true -> get_entries mi None !! j = Some sub ->
         exists a, dropdown_links li !! j = Some a
                   /\ has_class "active" a = is_active sub req)
    /\ count_class "active" li = marked_active req mi.
Proof.
  intros Hi. exists (render_item req mi).
  rewrite navbar_entries_main.
  split; [|split; [|split; [|split; [|split]]]].
  - change (List.map (render_item req) (m None)) with (render_item req <$> m None).
    rewrite list_lookup_fmap, Hi. reflexivity.
  - apply item_active_class.
  - apply item_dropdown_class.
  - apply item_dropdown_links.
  - intros j sub Hsub Hj. exists (render_subitem req sub).
    rewrite item_dropdown_links, Hsub. split.
    + change (List.map (render_subitem req) (get_entries mi None))
        with (render_subitem req <$> get_entries mi None).
      rewrite list_lookup_fmap, Hj. reflexivity.
    + apply subitem_active_class.
  - apply item_count_active.
Qed.


(** The main menu emits a dropdown container for an entry exactly when the
    entry is a submenu with a non-empty list of entries. *)
Lemma navbar_container_iff_nonempty (req : request) (mi : item) :
  length (dropdown_containers (render_item req mi))
  = if is_submenu mi && nonempty (get_entries mi None) then 1 else 0.
Proof.
  rewrite item_dropdown_containers.
  destruct (is_submenu mi && nonempty (get_entries mi None)); reflexivity.
Qed.

End MacrosSiteProperties.

Section MacrosSiteSamples.
Import Html MacrosSite MenuSamples.

Lemma navbar_active_marking_witness :
  main_menu None !! 1
    = Some (submenu "admin" [leaf "users" "users.list"; leaf "groups" "groups.list"])
  /\ exists li,
       navbar_entries (render_navbar_main icon_markup gettext main_menu "users.list") !! 1
         = Some li
       /\ has_class "active" li = false
       /\ has_class "dropdown" li = true
       /\ count_class "active" li = 1.
Proof.
  split; [reflexivity|].
  destruct (navbar_active_marking icon_markup gettext main_menu "users.list" 1
              (submenu "admin" [leaf "users" "users.list"; leaf "groups" "groups.list"])
              eq_refl) as (li & Hli & Hc & Hd & _ & _ & Hn).
  exists li. split; [exact Hli|]. split; [exact Hc|]. split; [exact Hd|exact Hn].
Defined.

(** C1 as stated fails.  The third entry of the sample menu is a submenu
    whose [is_active] holds for the request [more.index]; it is rendered,
    and no element of the output carries the class [active]. *)
Lemma navbar_active_counterexample :
  main_menu None !! 2 = Some (section_menu "more" "more.index" [])
  /\ is_active (section_menu "more" "more.index" []) "more.index" = true
  /\ (exists li,
        navbar_entries (render_navbar_main icon_markup gettext main_menu "more.index") !! 2
          = Some li
        /\ has_class "active" li = false)
  /\ list_sum (List.map (count_class "active")
                (render_navbar_main icon_markup gettext main_menu "more.index")) = 0.
Proof.
  split; [reflexivity|]. split; [reflexivity|]. split; [|reflexivity].
  eexists. split; reflexivity.
Qed.

(** C2 at its failing input.  An action menu holding a submenu without
    entries still emits the dropdown list for it, with no children. *)
Lemma action_menu_empty_container :
  get_entries (section_menu "more" "more.index" []) None = []
  /\ render_action_item icon_markup None (section_menu "more" "more.index" [])
     = [Elem "a"
          [("data-toggle", "dropdown"); ("role", "button"); ("aria-haspopup", "true");
           ("href", "#"); ("class", "btn btn-secondary btn-sm dropdown-toggle");
           ("aria-expanded", "false")]
          [Elem "span" [] [Text "more"; Elem "span" [("class", "caret")] []]];
        Elem "ul" [("class", "dropdown-menu")] []]
  /\ list_sum (List.map (count_class "dropdown-menu")
                (render_menu_actions icon_markup gettext (Some action_menu) None "")) = 1.
Proof.
  split; [reflexivity|]. split; reflexivity.
Qed.

End MacrosSiteSamples.

(** ** The database bootstrap script *)

Lemma string_length_app (s1 s2 : string) :
  String.length (s1 +:+ s2) = String.length s1 + String.length s2.
Proof.
  induction s1 as [|c s1 IH]; [reflexivity|].
  change (S (String.length (s1 +:+ s2)) = S (String.length s1 + String.length s2)).
  now rewrite IH.
Qed.

Lemma string_app_assoc (s1 s2 s3 : string) :
  (s1 +:+ s2) +:+ s3 = s1 +:+ (s2 +:+ s3).
Proof.
  induction s1 as [|c s1 IH]; [reflexivity|].
  change (String c ((s1 +:+ s2) +:+ s3) = String c (s1 +:+ (s2 +:+ s3))).
  now rewrite IH.
Qed.

Section WordProperties.
Import MydojoInit.

Lemma prefix_app_l (w s line : string) :
  String.prefix (w +:+ s) line = true -> String.prefix w line = true.
Proof.
  revert line. induction w as [|c w IH]; intros line H; [now destruct line|].
  destruct line as [|c' line]; [discriminate|].
  change (String c w +:+ s) with (String c (w +:+ s)) in H.
  cbn [String.prefix] in *. destruct (Ascii.ascii_dec c c'); [now apply IH|discriminate].
Qed.

Lemma contains_app_l (w s line : string) :
  contains (w +:+ s) line = true -> contains w line = true.
Proof.
  induction line as [|c line IH]; cbn [contains]; intros H.
  - apply orb_true_iff in H as [H|H]; [|discriminate].
    apply prefix_app_l in H. now rewrite H.
  - apply orb_true_iff in H as [H|H].
    + apply prefix_app_l in H. now rewrite H.
    + rewrite (IH H). apply orb_true_r.
Qed.

Lemma word_chars_app (a b : string) :
  word_chars (a +:+ b) = word_chars a && word_chars b.
Proof.
  induction a as [|c a IH]; [reflexivity|].
  change (String c a +:+ b) with (String c (a +:+ b)). cbn [word_chars].
  now rewrite IH, andb_assoc.
Qed.

Lemma plain_word_app (w : string) : plain_word w = true -> plain_word (w +:+ "_test") = true.
Proof.
  unfold plain_word. intros H. apply andb_true_iff in H as [Hne Hw].
  rewrite word_chars_app, Hw. destruct w; [discriminate|reflexivity].
Qed.

Lemma word_char_not_blank (c : ascii) : word_char c = true -> blank c = false.
Proof. destruct c as [[] [] [] [] [] [] [] []]; (discriminate || reflexivity). Qed.

Lemma split_blanks_word (w : string) : word_chars w = true -> split_blanks w = [w].
Proof.
  induction w as [|c w IH]; [reflexivity|].
  cbn [word_chars split_blanks]. intros H. apply andb_true_iff in H as [Hc Hw].
  now rewrite (word_char_not_blank c Hc), (IH Hw).
Qed.

Lemma fields_plain (w : string) : plain_word w = true -> fields w = [w].
Proof.
  unfold plain_word, fields. intros H. apply andb_true_iff in H as [Hne Hw].
  rewrite (split_blanks_word w Hw). cbn [List.filter]. now rewrite Hne.
Qed.

End WordProperties.

Section MydojoInitProperties.
Import MydojoInit.

Context {DB : Type}.
Variable answer : query -> DB -> list string.
Variable exec : string -> DB -> DB.
Variable grep : string -> list string -> bool.

Local Abbreviation init := (mydojo_init DB answer exec grep).
Local Abbreviation mk_user := (create_user DB answer exec grep).
Local Abbreviation mk_db := (create_database DB answer exec grep).

Lemma statements_app (t1 t2 : list event) :
  statements (t1 ++ t2) = statements t1 ++ statements t2.
Proof. unfold statements. apply omap_app. Qed.

Lemma create_user_spec (USER PASS : string) (s : shell DB) :
  db (mk_user USER PASS s)
    = (if grep USER (answer SelectUsename (db s)) then db s
       else exec (create_user_sql USER PASS) (db s))
  /\ statements (trace (mk_user USER PASS s))
    = statements (trace s)
      ++ (if grep USER (answer SelectUsename (db s)) then []
          else [create_user_sql USER PASS]).
Proof.
  unfold create_user, psql_query, psql_exec, echo. cbn [db trace].
  destruct (grep USER (answer SelectUsename (db s))); cbn [negb db trace]; split;
    try reflexivity.
  - rewrite statements_app. cbn [statements omap]. now rewrite !app_nil_r.
  - rewrite !statements_app. cbn [statements omap]. now rewrite !app_nil_r.
Qed.

Lemma create_database_spec (USER dbname : string) (s : shell DB) :
  db (mk_db USER dbname s)
    = (if grep dbname (answer SelectDatname (db s)) then db s
       else exec (grant_all_sql dbname USER) (exec (create_database_sql dbname) (db s)))
  /\ statements (trace (mk_db USER dbname s))
    = statements (trace s)
      ++ (if grep dbname (answer SelectDatname (db s)) then []
          else [create_database_sql dbname; grant_all_sql dbname USER]).
Proof.
  unfold create_database, psql_query, psql_exec, echo. cbn [db trace].
  destruct (grep dbname (answer SelectDatname (db s))); cbn [negb db trace]; split;
    try reflexivity.
  - rewrite statements_app. cbn [statements omap]. now rewrite !app_nil_r.
  - rewrite !statements_app. cbn [statements omap].
    rewrite !app_nil_r, <- !app_assoc. reflexivity.
Qed.

Lemma init_unfold (args : list string) (s : shell DB) :
  init args s
  = mk_db (positional args 1 "mydojo") (positional args 3 "mydojo" +:+ "_test")
      (mk_db (positional args 1 "mydojo") (positional args 3 "mydojo")
         (mk_user (positional args 1 "mydojo") (positional args 2 "mydojo") s)).
Proof. reflexivity. Qed.

(** What a run hands to [psql] and where it leaves the database, by the
    three guards of the script. *)
Lemma init_run (args : list string) (d : DB) :
  let USER := positional args 1 "mydojo" in
  let PASS := positional args 2 "mydojo" in
  let DBNM := positional args 3 "mydojo" in
  let d1 := if grep USER (answer SelectUsename d) then d
            else exec (create_user_sql USER PASS) d in
  let d2 := if grep DBNM (answer SelectDatname d1) then d1
            else exec (grant_all_sql DBNM USER) (exec (create_database_sql DBNM) d1) in
  let d3 := if grep (DBNM +:+ "_test") (answer SelectDatname d2) then d2
            else exec (grant_all_sql (DBNM +:+ "_test") USER)
                   (exec (create_database_sql (DBNM +:+ "_test")) d2) in
  statements (trace (init args (start d)))
  = (if grep USER (answer SelectUsename d) then [] else [create_user_sql USER PASS])
    ++ (if grep DBNM (answer SelectDatname d1) then []
        else [create_database_sql DBNM; grant_all_sql DBNM USER])
    ++ (if grep (DBNM +:+ "_test") (answer SelectDatname d2) then []
        else [create_database_sql (DBNM +:+ "_test");
              grant_all_sql (DBNM +:+ "_test") USER])
  /\ db (init args (start d)) = d3.
Proof.
  intros USER PASS DBNM d1 d2 d3.
  rewrite init_unfold. fold USER PASS DBNM.
  destruct (create_user_spec USER PASS (start d)) as [Hd1 Ht1].
  destruct (create_database_spec USER DBNM (mk_user USER PASS (start d))) as [Hd2 Ht2].
  destruct (create_database_spec USER (DBNM +:+ "_test")
              (mk_db USER DBNM (mk_user USER PASS (start d)))) as [Hd3 Ht3].
  cbn [start db trace statements omap] in Hd1, Ht1. fold d1 in Hd1.
  rewrite Hd1 in Hd2, Ht2. fold d2 in Hd2.
  rewrite Hd2 in Hd3, Ht3. fold d3 in Hd3.
  split; [|exact Hd3].
  rewrite Ht3, Ht2, Ht1. cbn [app]. now rewrite <- app_assoc.
Qed.

Lemma init_defaults (u p : string) (s : shell DB) :
  init [] s = init ["mydojo"; "mydojo"; "mydojo"] s
  /\ init [u] s = init [u; "mydojo"; "mydojo"] s
  /\ init [u; p] s = init [u; p; "mydojo"] s.
Proof.
  rewrite !init_unfold. unfold positional. cbn.
  split; [reflexivity|]. split; destruct (String.eqb u ""); try reflexivity;
    destruct (String.eqb p ""); reflexivity.
Qed.

(** A run whose three guards find their name hands nothing to [psql] and
    leaves the database as it was. *)
Lemma init_guards_pass (args : list string) (d : DB) :
  grep (positional args 1 "mydojo") (answer SelectUsename d) = true ->
  grep (positional args 3 "mydojo") (answer SelectDatname d) = true ->
  grep (positional args 3 "mydojo" +:+ "_test") (answer SelectDatname d) = true ->
  statements (trace (init args (start d))) = [] /\ db (init args (start d)) = d.
Proof.
  intros Hu Hn Ht.
  destruct (init_run args d) as (Hst & Hdb). cbn zeta in Hst, Hdb.
  rewrite Hu in Hst, Hdb. rewrite Hn in Hst, Hdb. rewrite Ht in Hst, Hdb.
  split; assumption.
Qed.

(** C3, as amended.  Absent positional arguments default to [mydojo].  The
    script hands [CREATE USER <user> WITH PASSWORD '<pass>';] to [psql]
    when, and only when, [grep <user>] on the output of the user catalog
    query does not exit with status 0; then, for [<name>] and for
    [<name>_test] in this order, it hands over [CREATE DATABASE <n>;]
    followed by [GRANT ALL PRIVILEGES ON DATABASE <n> TO <user>;] when, and
    only when, [grep <n>] on the output of the database catalog query does
    not exit with status 0 at that point.  Besides the catalog queries it
    hands no other command text to [psql]. *)
Theorem init_creates_missing (args : list string) (d : DB) :
  let USER := positional args 1 "mydojo" in
  let PASS := positional args 2 "mydojo" in
  let DBNM := positional args 3 "mydojo" in
  let d1 := if grep USER (answer SelectUsename d) then d
            else exec (create_user_sql USER PASS) d in
  let d2 := if grep DBNM (answer SelectDatname d1) then d1
            else exec (grant_all_sql DBNM USER) (exec (create_database_sql DBNM) d1) in
  (forall u p s,
      init [] s = init ["mydojo"; "mydojo"; "mydojo"] s
      /\ init [u] s = init [u; "mydojo"; "mydojo"] s
      /\ init [u; p] s = init [u; p; "mydojo"] s)
  /\ statements (trace (init args (start d)))
     = (if grep USER (answer SelectUsename d) then []
        else ["CREATE USER " +:+ USER +:+ " WITH PASSWORD '" +:+ PASS +:+ "';"])
       ++ (if grep DBNM (answer SelectDatname d1) then []
           else ["CREATE DATABASE " +:+ DBNM +:+ ";";
                 "GRANT ALL PRIVILEGES ON DATABASE " +:+ DBNM +:+ " TO " +:+ USER +:+ ";"])
       ++ (if grep (DBNM +:+ "_test") (answer SelectDatname d2) then []
           else ["CREATE DATABASE " +:+ (DBNM +:+ "_test") +:+ ";";
                 "GRANT ALL PRIVILEGES ON DATABASE " +:+ (DBNM +:+ "_test")
                   +:+ " TO " +:+ USER +:+ ";"])
  /\ omap (fun e => match e with Query q => Some (query_text q) | _ => None end)
          (trace (init args (start d)))
     = ["SELECT usename FROM pg_catalog.pg_user;";
        "SELECT datname FROM pg_catalog.pg_database;";
        "SELECT datname FROM pg_catalog.pg_database;"].
Proof.
  intros USER PASS DBNM d1 d2. split; [apply init_defaults|]. split.
  - apply (init_run args d).
  - rewrite init_unfold.
    unfold create_database, create_user, psql_query, psql_exec, echo, start.
    cbn [db trace].
    repeat match goal with
    | |- context [if negb ?b then _ else _] => destruct b; cbn [negb db trace]
    end; reflexivity.
Qed.

Lemma grant_test_differs (n u : string) :
  grant_all_sql (n +:+ "_test") u <> grant_all_sql n u.
Proof.
  unfold grant_all_sql. intros H.
  apply String.app_inj in H.
  rewrite string_app_assoc in H. apply String.app_inj in H. discriminate H.
Qed.

(** X16.  When [grep] finds [<name>] in the output of the database catalog
    query, the command [GRANT ALL PRIVILEGES ON DATABASE <name> TO <user>;]
    is not among those the run hands to [psql], also when the run has only
    just created the role. *)
Theorem init_no_grant_on_existing (args : list string) (d : DB) :
  let USER := positional args 1 "mydojo" in
  let PASS := positional args 2 "mydojo" in
  let DBNM := positional args 3 "mydojo" in
  let d1 := if grep USER (answer SelectUsename d) then d
            else exec (create_user_sql USER PASS) d in
  grep DBNM (answer SelectDatname d1) = true ->
  ~ In (grant_all_sql DBNM USER) (statements (trace (init args (start d)))).
Proof.
  intros USER PASS DBNM d1 Hn.
  destruct (init_run args d) as [Hst _]. cbn zeta in Hst.
  fold USER PASS DBNM in Hst. fold d1 in Hst. rewrite Hst, Hn. clear Hst.
  pose proof (grant_test_differs DBNM USER) as Hne.
  assert (Hu : create_user_sql USER PASS <> grant_all_sql DBNM USER) by discriminate.
  assert (Hc : create_database_sql (DBNM +:+ "_test") <> grant_all_sql DBNM USER)
    by discriminate.
  repeat match goal with
  | |- context [if ?b then _ else _] => destruct b
  end; cbn [app In]; tauto.
Qed.

(** X17.  For a database name that is a plain word, [grep] looks for the
    name inside each line, so a line reporting [<name>_test] also counts as
    a report of [<name>]: when [grep] finds the role and [<name>_test], the
    run hands nothing to [psql] and never creates [<name>], whether it
    exists or not. *)
Theorem init_test_database_shadows (args : list string) (d : DB)
    (Hword : forall w lines,
        plain_word w = true -> grep w lines = existsb (contains w) lines) :
  let USER := positional args 1 "mydojo" in
  let DBNM := positional args 3 "mydojo" in
  plain_word DBNM = true ->
  grep USER (answer SelectUsename d) = true ->
  grep (DBNM +:+ "_test") (answer SelectDatname d) = true ->
  statements (trace (init args (start d))) = [] /\ db (init args (start d)) = d.
Proof.
  intros USER DBNM Hp Hu Ht.
  apply init_guards_pass; [exact Hu| |exact Ht].
  fold DBNM. rewrite Hword by exact Hp.
  rewrite Hword in Ht by now apply plain_word_app.
  revert Ht. generalize (answer SelectDatname d). intros lines.
  induction lines as [|l lines IH]; cbn [existsb]; [discriminate|].
  intros H. apply orb_true_iff in H as [H|H].
  - now rewrite (contains_app_l _ _ _ H).
  - rewrite (IH H). apply orb_true_r.
Qed.

(** X18.  Whatever the catalog answers, a run asks it exactly three times,
    once for the roles and then twice for the databases, and announces
    every statement it issues with one line of output. *)
Theorem init_trace_shape (args : list string) (d : DB) :
  omap (fun e => match e with Query q => Some q | _ => None end)
       (trace (init args (start d)))
  = [SelectUsename; SelectDatname; SelectDatname]
  /\ length (List.filter (fun e => match e with Echo _ => true | _ => false end)
               (trace (init args (start d))))
     = length (statements (trace (init args (start d)))).
Proof.
  rewrite init_unfold.
  unfold create_database, create_user, psql_query, psql_exec, echo, start.
  cbn [db trace].
  repeat match goal with
  | |- context [if negb ?b then _ else _] => destruct b; cbn [negb db trace]
  end; split; reflexivity.
Qed.

End MydojoInitProperties.

Section CatalogSamples.
Import MydojoInit.

Local Abbreviation run := (mydojo_init catalog catalog_answer catalog_exec sample_grep).

(** On a fresh cluster the script creates the role and both databases. *)
Example init_fresh_cluster :
  statements (trace (run [] (start fresh_cluster)))
  = ["CREATE USER mydojo WITH PASSWORD 'mydojo';";
     "CREATE DATABASE mydojo;";
     "GRANT ALL PRIVILEGES ON DATABASE mydojo TO mydojo;";
     "CREATE DATABASE mydojo_test;";
     "GRANT ALL PRIVILEGES ON DATABASE mydojo_test TO mydojo;"]
  /\ db (run [] (start fresh_cluster)) = provisioned_cluster.
Proof. split; reflexivity. Qed.

(** C3 as stated fails.  On a cluster that already holds the role and both
    databases, a run without arguments creates nothing. *)
Lemma init_provisioned_counterexample :
  statements (trace (run [] (start provisioned_cluster))) = []
  /\ statements (trace (run [] (start provisioned_cluster)))
     <> ["CREATE USER mydojo WITH PASSWORD 'mydojo';";
         "CREATE DATABASE mydojo;";
         "GRANT ALL PRIVILEGES ON DATABASE mydojo TO mydojo;";
         "CREATE DATABASE mydojo_test;";
         "GRANT ALL PRIVILEGES ON DATABASE mydojo_test TO mydojo;"]
  /\ db (run [] (start provisioned_cluster)) = provisioned_cluster.
Proof. split; [reflexivity|]. split; [discriminate|reflexivity]. Qed.

(** C7 at its failing input.  The cluster holds a role named [my dojo], and
    the user catalog query prints a line containing that name.  Called with
    that name, the script runs [grep my dojo]: the name falls into two
    words, grep finds no file [dojo] to search and fails, and the script
    hands [CREATE USER my dojo ...] to [psql] all the same; it does so on
    every run. *)
Lemma init_spaced_user_recreated :
  existsb (contains "my dojo") (catalog_answer SelectUsename spaced_cluster) = true
  /\ fields "my dojo" = ["my"; "dojo"]
  /\ statements (trace (run ["my dojo"] (start spaced_cluster)))
     = ["CREATE USER my dojo WITH PASSWORD 'mydojo';"]
  /\ statements
       (trace (run ["my dojo"] (start (db (run ["my dojo"] (start spaced_cluster))))))
     = ["CREATE USER my dojo WITH PASSWORD 'mydojo';"].
Proof. repeat split; reflexivity. Qed.

Lemma sample_grep_word (w : string) (lines : list string) :
  plain_word w = true -> sample_grep w lines = existsb (contains w) lines.
Proof.
  intros Hp. unfold sample_grep. rewrite (fields_plain w Hp), Hp. reflexivity.
Qed.

(** A cluster that holds the database but not the role, and one that holds
    the role and the test database only. *)
Lemma init_no_grant_on_existing_witness :
  sample_grep "mydojo"
    (catalog_answer SelectDatname
       (catalog_exec "CREATE USER mydojo WITH PASSWORD 'mydojo';"
          {| roles := ["postgres"]; databases := ["postgres"; "mydojo"]; grants := [] |}))
  = true
  /\ ~ In "GRANT ALL PRIVILEGES ON DATABASE mydojo TO mydojo;"
        (statements
           (trace (run [] (start {| roles := ["postgres"];
                                    databases := ["postgres"; "mydojo"];
                                    grants := [] |})))).
Proof.
  split; [reflexivity|].
  exact (init_no_grant_on_existing catalog_answer catalog_exec sample_grep []
           {| roles := ["postgres"]; databases := ["postgres"; "mydojo"]; grants := [] |}
           eq_refl).
Defined.

Lemma init_test_database_shadows_witness :
  ~ In "mydojo" ["postgres"; "mydojo_test"]
  /\ statements
       (trace (run [] (start {| roles := ["postgres"; "mydojo"];
                                databases := ["postgres"; "mydojo_test"];
                                grants := [] |})))
     = [].
Proof.
  split; [cbn; intros [H|[H|[]]]; discriminate|].
  exact (proj1 (init_test_database_shadows catalog_answer catalog_exec sample_grep []
                  {| roles := ["postgres"; "mydojo"];
                     databases := ["postgres"; "mydojo_test"]; grants := [] |}
                  sample_grep_word eq_refl eq_refl eq_refl)).
Defined.

End CatalogSamples.

(** ** The Grunt vendoring task *)

Section GruntfileProperties.
Import Gruntfile.

Context {content : Type}.
Variable yarn_install : gmap path content -> option (gmap path content).
Variable pybabel_compile : gmap path content -> option (gmap path content).

Local Abbreviation fs := (gmap path content).
Local Abbreviation write := (fun (acc : fs) (dc : path * content) => <[dc.1 := dc.2]> acc).

Lemma strip_prefix_app (dir p rest : path) :
  strip_prefix dir p = Some rest -> p = dir ++ rest.
Proof.
  revert p. induction dir as [|a dir IH]; intros p H; cbn in H.
  - now inversion H.
  - destruct p as [|b p]; [discriminate|].
    destruct (String.eqb a b) eqn:E; [|discriminate].
    apply String.eqb_eq in E. subst b. cbn. f_equal. now apply IH.
Qed.

Lemma destination_shape (m : file_mapping) (p d : path) :
  destination m p = Some d ->
  exists rest base, p = cwd m ++ rest /\ last rest = Some base /\ d = dest m ++ [base].
Proof.
  unfold destination. intros H.
  destruct (strip_prefix (cwd m) p) as [rest|] eqn:Hs; [|discriminate].
  destruct (glob_matches (src m) rest); [|discriminate].
  destruct (last rest) as [base|] eqn:Hl; [|discriminate].
  inversion H. exists rest, base. split; [now apply strip_prefix_app|]. now split.
Qed.

Lemma mapping_dirs (m : file_mapping) :
  In m copy_vendor_files ->
  (exists sub, cwd m = node_modules ++ sub) /\ (exists sub, dest m = vendor ++ sub).
Proof.
  unfold copy_vendor_files. cbn [In].
  intros H. repeat (destruct H as [<-|H]; [split; eexists; reflexivity|]).
  contradiction.
Qed.

Lemma below_node_modules_not_vendor (p : path) :
  node_modules `prefix_of` p -> ~ vendor `prefix_of` p.
Proof.
  intros [r1 ->] [r2 H]. discriminate H.
Qed.

Lemma destination_dirs (m : file_mapping) (p d : path) :
  In m copy_vendor_files -> destination m p = Some d ->
  node_modules `prefix_of` p /\ vendor `prefix_of` d.
Proof.
  intros Hm Hd. destruct (mapping_dirs m Hm) as [[s1 H1] [s2 H2]].
  destruct (destination_shape m p d Hd) as (rest & base & -> & _ & ->).
  rewrite H1, H2, <- !app_assoc. split; eexists; reflexivity.
Qed.

Lemma clean_vendor_lookup (f : fs) (p : path) :
  clean content clean_vendor_src f !! p
  = if decide (vendor `prefix_of` p) then None else f !! p.
Proof.
  unfold clean, clean_vendor_src, clean_path. cbn [foldr].
  destruct (decide (vendor `prefix_of` p)) as [Hv|Hv].
  - apply map_lookup_filter_None. right. intros c _ Hn. now apply Hn.
  - destruct (f !! p) as [c|] eqn:E.
    + apply map_lookup_filter_Some. now split.
    + apply map_lookup_filter_None. now left.
Qed.

Lemma write_all_lookup_Some (l : list (path * content)) (f : fs) (p : path) (c : content) :
  fold_left write l f !! p = Some c -> In (p, c) l \/ f !! p = Some c.
Proof.
  revert f. induction l as [|[d x] l IH]; intros f H; cbn in *; [now right|].
  destruct (IH _ H) as [Hin|Hf]; [now left; right|].
  destruct (decide (d = p)) as [->|Hne].
  - rewrite lookup_insert_eq in Hf. inversion Hf. now left; left.
  - rewrite lookup_insert_ne in Hf by done. now right.
Qed.

Lemma write_all_lookup_in (l : list (path * content)) (f : fs) (p : path) :
  In p (List.map fst l) -> is_Some (fold_left write l f !! p).
Proof.
  revert f. induction l as [|[d x] l IH]; intros f H; cbn in *; [contradiction|].
  destruct (decide (p ∈ List.map fst l)) as [Hin|Hout]; rewrite list_elem_of_In in *.
  - now apply IH.
  - destruct H as [->|H]; [|contradiction].
    clear IH. revert f. induction l as [|[d' x'] l IH]; intros f; cbn in *.
    + rewrite lookup_insert_eq. by eexists.
    + rewrite insert_insert_ne by (intros ->; apply Hout; now left).
      apply IH. intros Hin. apply Hout. now right.
Qed.

Lemma write_all_lookup_out (l : list (path * content)) (f : fs) (p : path) :
  ~ In p (List.map fst l) -> fold_left write l f !! p = f !! p.
Proof.
  revert f. induction l as [|[d x] l IH]; intros f H; cbn in *; [reflexivity|].
  rewrite IH by (intros Hin; apply H; now right).
  apply lookup_insert_ne. intros ->. apply H. now left.
Qed.

Lemma expand_mapping_in (f : fs) (m : file_mapping) (d : path) (c : content) :
  In (d, c) (expand_mapping content f m)
  <-> exists q, f !! q = Some c /\ destination m q = Some d.
Proof.
  unfold expand_mapping. rewrite <- list_elem_of_In, list_elem_of_omap. split.
  - intros ([q c'] & Hin & Hd). apply elem_of_map_to_list in Hin. cbn in Hd.
    destruct (destination m q) as [d'|] eqn:E; [|discriminate].
    cbn in Hd. inversion Hd. subst. now exists q.
  - intros (q & Hq & Hd). exists (q, c). split; [now apply elem_of_map_to_list|].
    cbn. now rewrite Hd.
Qed.

Lemma copies_in (f : fs) (files : list file_mapping) (d : path) (c : content) :
  In (d, c) (List.concat (List.map (expand_mapping content f) files))
  <-> exists m q, In m files /\ f !! q = Some c /\ destination m q = Some d.
Proof.
  rewrite in_concat. split.
  - intros (l & Hl & Hin). apply in_map_iff in Hl as (m & <- & Hm).
    apply expand_mapping_in in Hin as (q & Hq & Hd). now exists m, q.
  - intros (m & q & Hm & Hq & Hd). exists (expand_mapping content f m). split.
    + apply in_map_iff. now exists m.
    + apply expand_mapping_in. now exists q.
Qed.

Lemma webui_steps (f f' : fs) :
  webui content yarn_install pybabel_compile f = Some f' ->
  exists f0 f1,
    yarn_install f = Some f0 /\ pybabel_compile f0 = Some f1
    /\ f' = copy content copy_vendor_files (clean content clean_vendor_src f1).
Proof.
  unfold webui, webui_tasks. cbn [run_tasks].
  change (run_task content yarn_install pybabel_compile "shell:yarn_install" f)
    with (yarn_install f).
  destruct (yarn_install f) as [f0|] eqn:Hy; [|discriminate].
  change (run_task content yarn_install pybabel_compile "shell:pybabel" f0)
    with (pybabel_compile f0).
  destruct (pybabel_compile f0) as [f1|] eqn:Hp; [|discriminate].
  change (run_task content yarn_install pybabel_compile "clean:vendor" f1)
    with (Some (clean content clean_vendor_src f1)).
  cbv beta iota.
  change (run_task content yarn_install pybabel_compile "copy:vendor"
            (clean content clean_vendor_src f1))
    with (Some (copy content copy_vendor_files (clean content clean_vendor_src f1))).
  cbv beta iota. intros H. inversion H. exists f0, f1.
  split; [reflexivity|]. split; [exact Hp|reflexivity].
Qed.

(** C5.  The [webui] task runs [clean:vendor] before [copy:vendor], and
    every copy mapping reads below [node_modules] and writes below the
    vendor directory of the design blueprint.  When the task succeeds, the
    files below the vendor directory are exactly the files the copy
    mappings take from below [node_modules], as they are once the two shell
    commands have run: every vendored file is the copy of a matched source,
    every matched source has a file at its destination, and nothing outside
    the vendor directory is touched by the clean or the copy. *)
Theorem webui_vendors_fresh_copies (f f' : fs) :
  webui content yarn_install pybabel_compile f = Some f' ->
  (exists before after,
      webui_tasks = before ++ "clean:vendor" :: after
      /\ In "copy:vendor" after /\ ~ In "copy:vendor" before)
  /\ Forall (fun m => node_modules `prefix_of` cwd m /\ vendor `prefix_of` dest m)
            copy_vendor_files
  /\ exists f0 f1,
      yarn_install f = Some f0 /\ pybabel_compile f0 = Some f1
      /\ (forall p c, vendor `prefix_of` p -> f' !! p = Some c ->
            exists m q, In m copy_vendor_files /\ node_modules `prefix_of` q
                        /\ f1 !! q = Some c /\ destination m q = Some p)
      /\ (forall m q c p, In m copy_vendor_files -> f1 !! q = Some c ->
            destination m q = Some p ->
            vendor `prefix_of` p /\ is_Some (f' !! p))
      /\ (forall p, ~ vendor `prefix_of` p -> f' !! p = f1 !! p).
Proof.
  intros Hrun. split.
  { exists ["shell:yarn_install"; "shell:pybabel"], ["copy:vendor"].
    split; [reflexivity|]. split; [now left|].
    cbn. intros [H|[H|[]]]; discriminate. }
  split.
  { apply Forall_forall. intros m Hm. apply list_elem_of_In in Hm.
    destruct (mapping_dirs m Hm) as [[s1 ->] [s2 ->]]. split; eexists; reflexivity. }
  destruct (webui_steps f f' Hrun) as (f0 & f1 & Hy & Hp & ->).
  exists f0, f1. split; [exact Hy|]. split; [exact Hp|].
  unfold copy. split; [|split].
  - intros p c Hv Hl. apply write_all_lookup_Some in Hl as [Hin|Hold].
    + apply copies_in in Hin as (m & q & Hm & Hq & Hd).
      destruct (destination_dirs m q p Hm Hd) as [Hn _].
      rewrite clean_vendor_lookup in Hq.
      destruct (decide (vendor `prefix_of` q)); [discriminate|].
      now exists m, q.
    + rewrite clean_vendor_lookup in Hold.
      destruct (decide (vendor `prefix_of` p)); [discriminate|contradiction].
  - intros m q c p Hm Hq Hd.
    destruct (destination_dirs m q p Hm Hd) as [Hn Hv].
    split; [exact Hv|]. apply write_all_lookup_in.
    apply in_map_iff. exists (p, c). split; [reflexivity|].
    apply copies_in. exists m, q. split; [exact Hm|]. split; [|exact Hd].
    rewrite clean_vendor_lookup.
    destruct (decide (vendor `prefix_of` q)) as [Hq'|]; [|exact Hq].
    now apply below_node_modules_not_vendor in Hn.
  - intros p Hv. rewrite write_all_lookup_out.
    + rewrite clean_vendor_lookup. destruct (decide (vendor `prefix_of` p)); [contradiction|].
      reflexivity.
    + intros Hin. apply in_map_iff in Hin as ([d c] & Hfst & Hin). cbn in Hfst. subst d.
      apply copies_in in Hin as (m & q & Hm & _ & Hd).
      now destruct (destination_dirs m q p Hm Hd).
Qed.

End GruntfileProperties.

Section GruntfileSamples.
Import Gruntfile.

Lemma webui_vendors_fresh_copies_witness :
  webui string Some Some sample_tree
    = Some (copy string copy_vendor_files (clean string clean_vendor_src sample_tree))
  /\ is_Some (copy string copy_vendor_files (clean string clean_vendor_src sample_tree)
                !! (vendor ++ ["jquery"; "js"; "jquery.min.js"]))
  /\ copy string copy_vendor_files (clean string clean_vendor_src sample_tree)
       !! ["mydojo"; "blueprints"; "design"; "static"; "css"; "mydojo.css"]
     = Some "site".
Proof.
  assert (Hrun : webui string Some Some sample_tree
                 = Some (copy string copy_vendor_files
                           (clean string clean_vendor_src sample_tree)))
    by reflexivity.
  split; [exact Hrun|].
  destruct (webui_vendors_fresh_copies Some Some sample_tree _ Hrun)
    as (_ & _ & f0 & f1 & H0 & H1 & _ & Hin & Hout).
  injection H0 as <-. injection H1 as <-. split.
  - apply (Hin {| cwd := node_modules ++ ["jquery"; "dist"]; src := Descendants;
                  dest := vendor ++ ["jquery"; "js"] |}
               ["node_modules"; "jquery"; "dist"; "jquery.min.js"] "jquery").
    + cbn. tauto.
    + reflexivity.
    + reflexivity.
  - rewrite Hout; [reflexivity|]. intros [r Hr]. discriminate Hr.
Defined.

End GruntfileSamples.

Section GruntfileMoreProperties.
Import Gruntfile.

Context {FS content json : Type}.
Variable readJSON : string -> FS -> option json.
Variable write : string -> content -> FS -> option FS.
Variable stringify : json -> content.

Local Abbreviation fs := (gmap path content).

Lemma replace_json_suffix_match (base : string) :
  replace_json_suffix (base +:+ ".json") = base +:+ ".min.json".
Proof.
  induction base as [|c base IH]; [reflexivity|].
  change (String c base +:+ ".json") with (String c (base +:+ ".json")).
  change (String c base +:+ ".min.json") with (String c (base +:+ ".min.json")).
  change (replace_json_suffix (String c (base +:+ ".json")))
    with (if String.eqb (String c (base +:+ ".json")) ".json" then ".min.json"
          else String c (replace_json_suffix (base +:+ ".json"))).
  assert (Hne : String.eqb (String c (base +:+ ".json")) ".json" = false).
  { apply String.eqb_neq. intros H. apply (f_equal String.length) in H.
    cbn in H. rewrite string_length_app in H. cbn in H. lia. }
  rewrite Hne, IH. reflexivity.
Qed.

Lemma replace_json_suffix_other (tgt : string) :
  (forall base, tgt <> base +:+ ".json") -> replace_json_suffix tgt = tgt.
Proof.
  induction tgt as [|c tgt IH]; intros H; [reflexivity|].
  change (replace_json_suffix (String c tgt))
    with (if String.eqb (String c tgt) ".json" then ".min.json"
          else String c (replace_json_suffix tgt)).
  destruct (String.eqb (String c tgt) ".json") eqn:E.
  - apply String.eqb_eq in E. exfalso. apply (H ""). exact E.
  - f_equal. apply IH. intros base Hb. apply (H (String c base)). cbn. now rewrite Hb.
Qed.

(** X11.  [minify_json_file] reads the source as JSON and writes its
    serialization once, to the target name with a final [.json] replaced by
    [.min.json]; a target name that does not end in [.json] is used as it
    is.  The call succeeds exactly when the read and that write succeed,
    and then logs the source name and the name written. *)
Theorem minify_json_file_writes (src tgt : string) (f : FS) :
  (forall base, replace_json_suffix (base +:+ ".json") = base +:+ ".min.json")
  /\ ((forall base, tgt <> base +:+ ".json") -> replace_json_suffix tgt = tgt)
  /\ (forall f' log,
        minify_json_file FS content json readJSON write stringify src tgt f = Some (f', log)
        <-> exists value,
              readJSON src f = Some value
              /\ write (replace_json_suffix tgt) (stringify value) f = Some f'
              /\ log = "Minified JSON file '" +:+ src +:+ "' to '"
                        +:+ replace_json_suffix tgt +:+ "'")
  /\ (minify_json_file FS content json readJSON write stringify src tgt f = None
      <-> readJSON src f = None
          \/ exists value, readJSON src f = Some value
                /\ write (replace_json_suffix tgt) (stringify value) f = None).
Proof.
  split; [apply replace_json_suffix_match|].
  split; [apply replace_json_suffix_other|].
  unfold minify_json_file.
  destruct (readJSON src f) as [value|] eqn:Hr.
  - destruct (write (replace_json_suffix tgt) (stringify value) f) as [g|] eqn:Hw; split.
    + intros f' log. split.
      * intros [= <- <-]. exists value. now rewrite Hw.
      * intros (value' & [= <-] & Hw' & ->). rewrite Hw in Hw'. now injection Hw' as ->.
    + split; [discriminate|]. intros [H|(value' & [= <-] & Hw')]; [discriminate|].
      rewrite Hw in Hw'. discriminate.
    + intros f' log. split; [discriminate|].
      intros (value' & [= <-] & Hw' & _). rewrite Hw in Hw'. discriminate.
    + split; [|reflexivity]. intros _. right. exists value. now rewrite Hw.
  - split.
    + intros f' log. split; [discriminate|]. intros (value & Hv & _). discriminate.
    + split; [now left|reflexivity].
Qed.

Lemma clean_agree (f g : fs) :
  (forall p, ~ vendor `prefix_of` p -> f !! p = g !! p) ->
  clean content clean_vendor_src f = clean content clean_vendor_src g.
Proof.
  intros H. apply map_eq. intros p. rewrite !clean_vendor_lookup.
  destruct (decide (vendor `prefix_of` p)); [reflexivity|]. now apply H.
Qed.

Lemma copy_outside_vendor (f : fs) (p : path) :
  ~ vendor `prefix_of` p ->
  copy content copy_vendor_files f !! p = f !! p.
Proof.
  intros Hv. unfold copy. apply write_all_lookup_out.
  intros Hin. apply in_map_iff in Hin as ([d c] & Hfst & Hin). cbn in Hfst. subst d.
  apply copies_in in Hin as (m & q & Hm & _ & Hd).
  now destruct (destination_dirs m q p Hm Hd).
Qed.

Lemma copy_has_destination (f : fs) (m : file_mapping) (q : path) (c : content) (p : path) :
  In m copy_vendor_files -> f !! q = Some c -> destination m q = Some p ->
  is_Some (copy content copy_vendor_files f !! p).
Proof.
  intros Hm Hq Hd. unfold copy. apply write_all_lookup_in.
  apply in_map_iff. exists (p, c). split; [reflexivity|].
  apply copies_in. now exists m, q.
Qed.

Lemma last_not_hidden (rest : path) (base : string) :
  forallb (fun name => negb (hidden name)) rest = true ->
  last rest = Some base -> hidden base = false.
Proof.
  induction rest as [|a rest IH]; [discriminate|].
  cbn [forallb]. intros Hall Hl. apply andb_true_iff in Hall as [Ha Hrest].
  destruct rest as [|b rest'].
  - cbn in Hl. inversion Hl. subst. now apply negb_true_iff in Ha.
  - rewrite last_cons_cons in Hl. now apply IH.
Qed.

(** X12.  What the vendor directory holds after a clean and a copy depends
    only on the files outside it: two file systems that agree outside the
    vendor directory end up the same, so no earlier vendored file survives
    or influences the result. *)
Theorem vendor_tree_independent (f g : fs) :
  (forall p, ~ vendor `prefix_of` p -> f !! p = g !! p) ->
  copy content copy_vendor_files (clean content clean_vendor_src f)
  = copy content copy_vendor_files (clean content clean_vendor_src g).
Proof. intros H. f_equal. now apply clean_agree. Qed.

(** X13.  Cleaning and copying a second time changes nothing. *)
Theorem clean_copy_idempotent (f : fs) :
  copy content copy_vendor_files
    (clean content clean_vendor_src
       (copy content copy_vendor_files (clean content clean_vendor_src f)))
  = copy content copy_vendor_files (clean content clean_vendor_src f).
Proof.
  f_equal. apply map_eq. intros p. rewrite !clean_vendor_lookup.
  destruct (decide (vendor `prefix_of` p)) as [Hv|Hv]; [reflexivity|].
  rewrite copy_outside_vendor by exact Hv. rewrite clean_vendor_lookup.
  destruct (decide (vendor `prefix_of` p)); [contradiction|reflexivity].
Qed.

(** X14.  Copies are flattened: after a clean and a copy, every file below
    the vendor directory sits directly in the destination directory of one
    of the copy mappings, under a name that does not start with a dot. *)
Theorem vendored_files_flat (f : fs) (p : path) (c : content) :
  vendor `prefix_of` p ->
  copy content copy_vendor_files (clean content clean_vendor_src f) !! p = Some c ->
  exists m base,
    In m copy_vendor_files /\ p = dest m ++ [base] /\ hidden base = false.
Proof.
  intros Hv Hl. unfold copy in Hl. apply write_all_lookup_Some in Hl as [Hin|Hold].
  - apply copies_in in Hin as (m & q & Hm & _ & Hd).
    exists m. unfold destination in Hd.
    destruct (strip_prefix (cwd m) q) as [rest|]; [|discriminate].
    destruct (glob_matches (src m) rest) eqn:Hg; [|discriminate].
    destruct (last rest) as [base|] eqn:Hb; [|discriminate].
    inversion Hd. exists base. split; [exact Hm|]. split; [reflexivity|].
    unfold glob_matches in Hg. apply andb_true_iff in Hg as [Hall _].
    now apply (last_not_hidden rest).
  - rewrite clean_vendor_lookup in Hold.
    destruct (decide (vendor `prefix_of` p)); [discriminate|contradiction].
Qed.

End GruntfileMoreProperties.

Section GruntfileMoreSamples.
Import Gruntfile.

Lemma vendor_tree_independent_witness :
  copy string copy_vendor_files (clean string clean_vendor_src sample_tree)
  = copy string copy_vendor_files
      (clean string clean_vendor_src (<[vendor ++ ["left-over.js"] := "old"]> sample_tree)).
Proof.
  apply vendor_tree_independent. intros p Hv. symmetry. apply lookup_insert_ne.
  intros <-. apply Hv. now exists ["left-over.js"].
Defined.

Lemma vendored_files_flat_witness :
  exists m base,
    In m copy_vendor_files
    /\ vendor ++ ["jquery"; "js"; "jquery.min.js"] = dest m ++ [base]
    /\ hidden base = false.
Proof.
  assert (Hs : is_Some (copy string copy_vendor_files
                          (clean string clean_vendor_src sample_tree)
                          !! (vendor ++ ["jquery"; "js"; "jquery.min.js"]))).
  { apply (copy_has_destination (clean string clean_vendor_src sample_tree)
             {| cwd := node_modules ++ ["jquery"; "dist"]; src := Descendants;
                dest := vendor ++ ["jquery"; "js"] |}
             ["node_modules"; "jquery"; "dist"; "jquery.min.js"] "jquery").
    - cbn. tauto.
    - rewrite clean_vendor_lookup.
      destruct (decide (vendor `prefix_of`
                          ["node_modules"; "jquery"; "dist"; "jquery.min.js"]))
        as [[r Hr]|_]; [discriminate Hr|reflexivity].
    - reflexivity. }
  destruct Hs as [c Hc].
  apply (vendored_files_flat sample_tree _ c); [|exact Hc].
  now exists ["jquery"; "js"; "jquery.min.js"].
Defined.

End GruntfileMoreSamples.

(** ** The WSGI entry point *)

Section WsgiProperties.
Import Wsgi.

Context {App : Type}.
Variable create_app_full : kwargs -> App.

(** C4.  The entry point builds [application] by one call of the factory
    with exactly three keyword arguments: the configuration class, the
    configuration file and the name of the environment variable. *)
Theorem wsgi_application_inputs :
  exists kw : kwargs,
    application App create_app_full = create_app_full kw
    /\ List.map fst kw = ["config_object"; "config_file"; "config_env"]
    /\ kwarg "config_object" kw = Some "mydojo.config.ProductionConfig"
    /\ kwarg "config_file" kw = Some "/etc/mydojo/mydojo.conf"
    /\ kwarg "config_env" kw = Some "FLASK_CONFIG_FILE".
Proof.
  eexists. split; [reflexivity|].
  split; [reflexivity|]. split; [reflexivity|]. split; reflexivity.
Qed.

End WsgiProperties.

(** ** The client-side module *)

Section MyDojoProperties.
Import MyDojo.

Local Abbreviation heap := (gmap loc object).
Variable host_set : value -> loc -> string -> value -> heap -> completion heap.

Local Abbreviation assign := (set_member host_set).
Local Abbreviation build := (_build_param_builder host_set).

(** All rule keys written into a property map. *)
Local Abbreviation bind_all := (fun (v : value) (rules : list rule) (m : gmap string value) =>
  fold_left (fun m r => <[rule_key r := v]> m) rules m).

(** An object with its own data properties replaced. *)
Local Abbreviation with_own := (fun (m : gmap string value) (o : object) =>
  {| own := m; proto := proto o; extensible := extensible o;
     readonly := readonly o; setters := setters o; ordinary := ordinary o |}).

Lemma plain_chain_inv (h : heap) (n : nat) (o : object) :
  plain_chain h n o = true ->
  ordinary o = true /\ readonly o = [] /\ setters o = []
  /\ (proto o = VNull \/ proto o = Object_prototype
      \/ exists l n' o', proto o = VObj l /\ n = S n' /\ h !! l = Some o'
                         /\ plain_chain h n' o' = true).
Proof.
  intros H. destruct n as [|n]; cbn [plain_chain] in H;
    apply andb_true_iff in H as [H Hp]; apply andb_true_iff in H as [Ho Ha];
    (split; [exact Ho|]);
    destruct (readonly o); try discriminate; destruct (setters o); try discriminate;
    (split; [reflexivity|]); (split; [reflexivity|]);
    destruct (proto o) as [| | | | |l|b]; try discriminate.
  - now left.
  - right; left. apply String.eqb_eq in Hp. now subst b.
  - now left.
  - right; right. destruct (h !! l) as [o'|] eqn:E; [|discriminate].
    now exists l, n, o'.
  - right; left. apply String.eqb_eq in Hp. now subst b.
Qed.

Lemma plain_chain_with_own (h : heap) (n : nat) (m : gmap string value) (o : object) :
  plain_chain h n (with_own m o) = plain_chain h n o.
Proof. destruct n; reflexivity. Qed.

Lemma plain_chain_insert (h : heap) (l : loc) (o : object) (m : gmap string value)
    (n : nat) (x : object) :
  h !! l = Some o ->
  plain_chain (<[l := with_own m o]> h) n x = plain_chain h n x.
Proof.
  intros Hl. revert x. induction n as [|n IH]; intros x; [reflexivity|].
  cbn [plain_chain]. f_equal.
  destruct (proto x) as [| | | | |l'|b]; try reflexivity.
  destruct (decide (l' = l)) as [->|Hne].
  - rewrite lookup_insert_eq, Hl, IH. apply plain_chain_with_own.
  - rewrite lookup_insert_ne by congruence.
    destruct (h !! l'); [apply IH|reflexivity].
Qed.

Lemma plain_object_insert (h : heap) (l : loc) (o : object) (m : gmap string value) :
  h !! l = Some o -> plain_object h o = true ->
  plain_object (<[l := with_own m o]> h) (with_own m o) = true.
Proof.
  intros Hl Hp. unfold plain_object in *. cbn [extensible].
  rewrite map_size_insert_Some by (rewrite Hl; eauto).
  now rewrite plain_chain_insert, plain_chain_with_own.
Qed.

Lemma plain_governing (h : heap) (m n : nat) (holder : value) (o : object) (k : string) :
  plain_chain h n o = true -> k <> "__proto__" ->
  governing h m holder o k = Writable \/ governing h m holder o k = Absent.
Proof.
  intros Hp Hk. revert n holder o Hp.
  induction m as [|m IH]; intros n holder o Hp;
    destruct (plain_chain_inv h n o Hp) as (Ho & Hr & Hs & Hc);
    cbn [governing]; rewrite Ho, Hr, Hs; cbn [negb mem existsb];
    (destruct (own o !! k); [now left|]);
    destruct Hc as [->|[->|(l & n' & o' & -> & -> & Hl & Hp')]];
    try (now right).
  - unfold Object_prototype, builtin_slot. cbn [String.eqb].
    change (String.eqb "Object.prototype" "Object.prototype") with true. cbv iota.
    apply String.eqb_neq in Hk. rewrite Hk.
    destruct (String.eqb k "constructor" || mem k Object_prototype_methods); auto.
  - unfold Object_prototype, builtin_slot.
    change (String.eqb "Object.prototype" "Object.prototype") with true. cbv iota.
    apply String.eqb_neq in Hk. rewrite Hk.
    destruct (String.eqb k "constructor" || mem k Object_prototype_methods); auto.
  - rewrite Hl. now apply (IH n').
Qed.

Lemma set_member_plain (h : heap) (l : loc) (o : object) (k : string) (v : value) :
  h !! l = Some o -> plain_object h o = true -> k <> "__proto__" ->
  assign l k v h = Normal (<[l := with_own (<[k := v]> (own o)) o]> h).
Proof.
  intros Hl Hp Hk. unfold plain_object in Hp. apply andb_true_iff in Hp as [He Hp].
  unfold set_member. rewrite Hl.
  destruct (plain_governing h (size h) (size h) (VObj l) o k Hp Hk) as [-> | ->];
    (destruct (own o !! k); [reflexivity|]); unfold set_own; rewrite He; reflexivity.
Qed.

Lemma forEach_plain (v : value) (l : loc) (rules : list rule) (h : heap) (o : object) :
  h !! l = Some o -> plain_object h o = true ->
  ~ In "__proto__" (List.map rule_key rules) ->
  forEach (fun r => assign l (rule_key r) v) rules h
  = Normal (<[l := with_own (bind_all v rules (own o)) o]> h).
Proof.
  revert h o. induction rules as [|r rules IH]; intros h o Hl Hp Hk;
    cbn [forEach fold_left].
  - f_equal. symmetry. apply insert_id. rewrite Hl. now destruct o.
  - rewrite (set_member_plain h l o) by (try done; intros E; apply Hk; now left).
    rewrite (IH _ (with_own (<[rule_key r := v]> (own o)) o)).
    + cbn [own proto extensible readonly setters ordinary]. now rewrite insert_insert_eq.
    + apply lookup_insert_eq.
    + now apply plain_object_insert.
    + intros Hin. apply Hk. now right.
Qed.

Lemma bind_all_bound (v : value) (rules : list rule) (m : gmap string value) (r : rule) :
  In r rules -> bind_all v rules m !! rule_key r = Some v.
Proof.
  revert m. induction rules as [|r' rules IH]; intros m Hin; cbn in *; [contradiction|].
  destruct (in_dec (List.list_eq_dec string_dec) r rules) as [Hr|Hr]; [now apply IH|].
  destruct Hin as [->|Hin]; [|contradiction].
  clear IH Hr. generalize (rule_key r). intros k.
  assert (Hgen : forall m', m' !! k = Some v -> bind_all v rules m' !! k = Some v).
  { induction rules as [|r' rules IH]; intros m' Hm'; cbn; [exact Hm'|].
    apply IH. destruct (decide (rule_key r' = k)) as [->|Hne].
    - apply lookup_insert_eq.
    - now rewrite lookup_insert_ne. }
  apply Hgen, lookup_insert_eq.
Qed.

Lemma bind_all_frame (v : value) (rules : list rule) (m : gmap string value) (k : string) :
  ~ In k (List.map rule_key rules) -> bind_all v rules m !! k = m !! k.
Proof.
  revert m. induction rules as [|r rules IH]; intros m Hk; cbn in *; [reflexivity|].
  rewrite IH by (intros Hin; apply Hk; now right).
  apply lookup_insert_ne. intros E. apply Hk. now left.
Qed.

Lemma bind_all_overwrites (v w : value) (rules : list rule) (m : gmap string value) :
  bind_all w rules (bind_all v rules m) = bind_all w rules m.
Proof.
  apply map_eq. intros k.
  destruct (decide (k ∈ List.map rule_key rules)) as [Hin|Hout];
    rewrite list_elem_of_In in *.
  - apply in_map_iff in Hin as (r & <- & Hr).
    now rewrite !(bind_all_bound w rules _ r Hr).
  - now rewrite !(bind_all_frame _ rules _ k Hout).
Qed.

Lemma builder_once (h : heap) (skeleton : loc) (o : object) (rules : list rule) (v : value) :
  h !! skeleton = Some o ->
  plain_object h o = true ->
  ~ In "__proto__" (List.map rule_key rules) ->
  exists h' o',
    build skeleton rules v h = Normal (skeleton, h')
    /\ h' !! skeleton = Some o'
    /\ plain_object h' o' = true
    /\ (forall r, In r rules -> own o' !! rule_key r = Some v)
    /\ (forall k, ~ In k (List.map rule_key rules) -> own o' !! k = own o !! k)
    /\ (forall l, l <> skeleton -> h' !! l = h !! l).
Proof.
  intros Hl Hp Hk.
  exists (<[skeleton := with_own (bind_all v rules (own o)) o]> h),
         (with_own (bind_all v rules (own o)) o).
  unfold _build_param_builder. rewrite (forEach_plain v skeleton rules h o Hl Hp Hk).
  split; [reflexivity|]. split; [apply lookup_insert_eq|].
  split; [now apply plain_object_insert|].
  cbn [own]. split; [intros r; apply bind_all_bound|].
  split; [intros k; apply bind_all_frame|].
  intros l Hne. now apply lookup_insert_ne.
Qed.

(** C8, as amended.  Take a skeleton that is a plain object (ordinary and
    extensible, all properties on it and on its prototype chain writable
    data properties, the chain ending in [Object.prototype] or null) and
    rules none of which names [__proto__].  The builder applied to a value
    returns the reference it was created with; in the object behind it
    every key named by a rule holds the value and every other own property
    is as before; no other object changes.  Since the object is shared, a
    later call of a builder over the same skeleton still sees each binding
    of the earlier call whose key it does not write itself. *)
Theorem builder_frame (h : heap) (skeleton : loc) (o : object) (rules : list rule)
    (v : value) :
  h !! skeleton = Some o ->
  plain_object h o = true ->
  ~ In "__proto__" (List.map rule_key rules) ->
  exists h' o',
    build skeleton rules v h = Normal (skeleton, h')
    /\ h' !! skeleton = Some o'
    /\ (forall r, In r rules -> own o' !! rule_key r = Some v)
    /\ (forall k, ~ In k (List.map rule_key rules) -> own o' !! k = own o !! k)
    /\ (forall l, l <> skeleton -> h' !! l = h !! l)
    /\ (forall rules2 w, ~ In "__proto__" (List.map rule_key rules2) ->
          exists h'' o'',
            build skeleton rules2 w h' = Normal (skeleton, h'')
            /\ h'' !! skeleton = Some o''
            /\ (forall r, In r rules2 -> own o'' !! rule_key r = Some w)
            /\ (forall r, In r rules -> ~ In (rule_key r) (List.map rule_key rules2) ->
                  own o'' !! rule_key r = Some v)).
Proof.
  intros Hl Hp Hk.
  destruct (builder_once h skeleton o rules v Hl Hp Hk)
    as (h' & o' & Hrun & Hl' & Hp' & Hbound & Hframe & Hother).
  exists h', o'. repeat (split; [assumption|]).
  intros rules2 w Hk2.
  destruct (builder_once h' skeleton o' rules2 w Hl' Hp' Hk2)
    as (h'' & o'' & Hrun2 & Hl'' & _ & Hbound2 & Hframe2 & _).
  exists h'', o''. repeat (split; [assumption|]).
  intros r Hr Hnot. rewrite Hframe2 by exact Hnot. now apply Hbound.
Qed.

(** X19.  Only the last call counts: for a plain skeleton and rules that do
    not name [__proto__], calling the builder with one value and then with
    another leaves the heap exactly as calling it with the second value
    alone; in particular a repeated call with the same value changes
    nothing. *)
Theorem builder_last_call_wins (h : heap) (skeleton : loc) (o : object)
    (rules : list rule) (v w : value) :
  h !! skeleton = Some o ->
  plain_object h o = true ->
  ~ In "__proto__" (List.map rule_key rules) ->
  exists h1 h2,
    build skeleton rules v h = Normal (skeleton, h1)
    /\ build skeleton rules w h1 = Normal (skeleton, h2)
    /\ build skeleton rules w h = Normal (skeleton, h2)
    /\ build skeleton rules w h2 = Normal (skeleton, h2).
Proof.
  intros Hl Hp Hk.
  assert (Hstep : forall (u : value) (h0 : heap) (o0 : object),
    h0 !! skeleton = Some o0 -> plain_object h0 o0 = true ->
    build skeleton rules u h0
    = Normal (skeleton, <[skeleton := with_own (bind_all u rules (own o0)) o0]> h0)).
  { intros u h0 o0 H0 Hp0. unfold _build_param_builder.
    now rewrite (forEach_plain u skeleton rules h0 o0 H0 Hp0 Hk). }
  exists (<[skeleton := with_own (bind_all v rules (own o)) o]> h),
         (<[skeleton := with_own (bind_all w rules (own o)) o]> h).
  split; [now apply Hstep|]. split; [|split; [now apply Hstep|]].
  - rewrite (Hstep w _ (with_own (bind_all v rules (own o)) o))
      by (try apply lookup_insert_eq; now apply plain_object_insert).
    cbn [own proto extensible readonly setters ordinary].
    now rewrite insert_insert_eq, bind_all_overwrites.
  - rewrite (Hstep w _ (with_own (bind_all w rules (own o)) o))
      by (try apply lookup_insert_eq; now apply plain_object_insert).
    cbn [own proto extensible readonly setters ordinary].
    now rewrite insert_insert_eq, bind_all_overwrites.
Qed.

Lemma governing_literal_proto (h : heap) (n : nat) (holder : value)
    (props : gmap string value) :
  props !! "__proto__" = None ->
  governing h n holder (object_literal props) "__proto__" = ProtoAccessor.
Proof.
  intros Hp. destruct n; unfold object_literal;
    cbn [governing ordinary negb setters readonly mem existsb own proto];
    rewrite Hp; reflexivity.
Qed.


(** C9, as amended.  [get_csag] completes normally for every registry and
    every name: it returns what the lookup returns, and [null] when the
    lookup throws.  It returns the registered entry when there is one and
    it is a data property.  When nothing is registered under the name, the
    registry inherits from the [Object.prototype] of the language and the
    name is not one that [Object.prototype] defines, it returns
    [undefined].  The lookup throws only in code that it runs: a getter
    registered under the name, or one reached through the prototype
    chain. *)
Theorem get_csag_total (csag : registry) (name : string) :
  (exists v, get_csag csag name = Normal v)
  /\ (forall v, get_member csag name = Normal v -> get_csag csag name = Normal v)
  /\ (forall e, get_member csag name = Throw e -> get_csag csag name = Normal VNull)
  /\ (forall v, entries csag !! name = Some (DataEntry v) -> get_csag csag name = Normal v)
  /\ (entries csag !! name = None ->
      inherited csag name = Object_prototype_read name ->
      name <> "__proto__" -> name <> "constructor" ->
      ~ In name Object_prototype_methods ->
      get_csag csag name = Normal VUndefined)
  /\ (forall e, get_member csag name = Throw e ->
        entries csag !! name = Some (AccessorEntry (Throw e))
        \/ (entries csag !! name = None /\ inherited csag name = Throw e)).
Proof.
  unfold get_csag, get_member.
  split; [destruct (entries csag !! name) as [[v|[v|e]]|];
          try (eexists; reflexivity); destruct (inherited csag name); eexists; reflexivity|].
  split; [now intros v ->|]. split; [now intros e ->|].
  split; [now intros v ->|]. split.
  - intros -> -> H1 H2 H3. unfold Object_prototype_read, Object_prototype_get.
    apply String.eqb_neq in H1, H2. rewrite H1, H2.
    destruct (existsb (String.eqb name) Object_prototype_methods) eqn:E; [|reflexivity].
    apply existsb_exists in E as (x & Hx & Hxe). apply String.eqb_eq in Hxe. now subst x.
  - intros e. destruct (entries csag !! name) as [[v|get]|]; [discriminate| |].
    + intros ->. now left.
    + intros ->. now right.
Qed.

End MyDojoProperties.

Section MyDojoSamples.
Import MyDojo.

Lemma builder_frame_witness :
  sample_heap !! 1%positive = Some (object_literal ∅)
  /\ plain_object sample_heap (object_literal ∅) = true
  /\ ~ In "__proto__" (List.map rule_key [["ip"]; ["host"; "name"]])
  /\ exists h' o',
       _build_param_builder no_host 1%positive [["ip"]; ["host"; "name"]] (VStr "a")
         sample_heap
         = Normal (1%positive, h')
       /\ h' !! 1%positive = Some o'
       /\ own o' !! "ip" = Some (VStr "a")
       /\ own o' !! "host" = Some (VStr "a").
Proof.
  assert (H1 : sample_heap !! 1%positive = Some (object_literal ∅)) by reflexivity.
  assert (Hp : plain_object sample_heap (object_literal ∅) = true) by reflexivity.
  assert (H2 : ~ In "__proto__" (List.map rule_key [["ip"]; ["host"; "name"]])).
  { cbn. intros [H|[H|[]]]; discriminate. }
  split; [exact H1|]. split; [exact Hp|]. split; [exact H2|].
  destruct (builder_frame no_host sample_heap 1%positive (object_literal ∅)
              [["ip"]; ["host"; "name"]] (VStr "a") H1 Hp H2)
    as (h' & o' & Hrun & Hl & Hbound & _).
  exists h', o'. split; [exact Hrun|]. split; [exact Hl|]. split.
  - apply (Hbound ["ip"]). now left.
  - apply (Hbound ["host"; "name"]). now right; left.
Defined.

(** C8 as stated fails.  A rule naming [__proto__] reaches the inherited
    accessor: with a number as value nothing is written, and the key is not
    bound in the returned object.  On a frozen skeleton no rule binds
    anything: the assignments are ignored. *)
Lemma builder_proto_counterexample :
  (sample_heap !! 1%positive = Some (object_literal ∅)
   /\ _build_param_builder no_host 1%positive [["__proto__"]] (VNum 5) sample_heap
      = Normal (1%positive, sample_heap)
   /\ own (object_literal ∅) !! "__proto__" = None)
  /\ (exists o, frozen_heap !! 1%positive = Some o
        /\ _build_param_builder no_host 1%positive [["ip"]; ["host"]] (VStr "a") frozen_heap
           = Normal (1%positive, frozen_heap)
        /\ own o !! "ip" = Some (VStr "x")
        /\ own o !! "host" = None).
Proof.
  split; [repeat split; reflexivity|].
  eexists. split; [reflexivity|]. repeat split; reflexivity.
Qed.

(** C9 as stated fails.  Nothing is registered under [toString], yet the
    lookup does not return [undefined]: it finds the inherited method.  And
    the [catch] branch can be reached: with a getter that throws stored in
    the registry, the lookup throws and [get_csag] returns [null]. *)
Lemma get_csag_inherited_counterexample :
  (entries _csag !! "toString" = None
   /\ get_csag _csag "toString" = Normal (VBuiltin "Object.prototype.toString")
   /\ get_csag _csag "toString" <> Normal VUndefined)
  /\ (get_member (get_csags guarded_registry) "secret" = Throw "Error"
      /\ get_csag guarded_registry "secret" = Normal VNull).
Proof.
  split; [split; [reflexivity|]; split; [reflexivity|discriminate]|].
  split; reflexivity.
Qed.

Lemma builder_last_call_wins_witness :
  sample_heap !! 1%positive = Some (object_literal ∅)
  /\ exists h1 h2,
       _build_param_builder no_host 1%positive [["ip"]] (VStr "a") sample_heap
         = Normal (1%positive, h1)
       /\ _build_param_builder no_host 1%positive [["ip"]] (VStr "b") h1
          = Normal (1%positive, h2)
       /\ _build_param_builder no_host 1%positive [["ip"]] (VStr "b") sample_heap
          = Normal (1%positive, h2).
Proof.
  assert (H1 : sample_heap !! 1%positive = Some (object_literal ∅)) by reflexivity.
  assert (Hp : plain_object sample_heap (object_literal ∅) = true) by reflexivity.
  assert (H2 : ~ In "__proto__" (List.map rule_key [["ip"]])).
  { cbn. intros [H|[]]. discriminate. }
  split; [exact H1|].
  destruct (builder_last_call_wins no_host sample_heap 1%positive (object_literal ∅)
              [["ip"]] (VStr "a") (VStr "b") H1 Hp H2)
    as (h1 & h2 & Ha & Hb & Hc & _).
  exists h1, h2. split; [exact Ha|]. split; [exact Hb|exact Hc].
Defined.


End MyDojoSamples.

(** ** The remaining site widgets *)

Section SiteWidgetsProperties.
Import Html MacrosSite SiteWidgets.

Context {request ctx : Type}.
Variable icon_markup : string -> string.
Variable gettext : string -> string.

Local Abbreviation item := (menu_item request ctx).


Lemma action_label_unmarked (c : string) (mi : item) (context_item : option ctx) :
  In c ["active"; "sr-only"] ->
  list_sum (List.map (count_class c) (action_label icon_markup mi context_item)) = 0.
Proof.
  intros Hc. unfold action_label.
  destruct Hc as [<-|[<-|[]]];
    destruct (truthy (get_icon mi context_item)), (truthy (get_title mi context_item)),
      (resptitle mi); reflexivity.
Qed.

Lemma action_subitem_unmarked (c : string) (context_item : option ctx) (sub : item) :
  In c ["active"; "sr-only"] ->
  count_class c (render_action_subitem icon_markup context_item sub) = 0.
Proof.
  intros Hc. unfold render_action_subitem. cbn [count_class app].
  rewrite (action_label_unmarked c sub context_item Hc).
  destruct Hc as [<-|[<-|[]]]; reflexivity.
Qed.

Lemma action_item_unmarked (context_item : option ctx) (mi : item) (c : string) :
  In c ["active"; "sr-only"] ->
  list_sum (List.map (count_class c) (render_action_item icon_markup context_item mi)) = 0.
Proof.
  intros Hc. unfold render_action_item.
  assert (Hsubs : forall subs : list item,
    list_sum (List.map (count_class c)
                (List.map (render_action_subitem icon_markup context_item) subs)) = 0).
  { induction subs as [|sub subs IH]; [reflexivity|].
    unfold list_sum in *. cbn [List.map fold_right].
    rewrite (action_subitem_unmarked c context_item sub Hc), IH. reflexivity. }
  assert (Hlab : list_sum (List.map (count_class c)
                   (action_label icon_markup mi context_item
                    ++ [Elem "span" [("class", "caret")] []])) = 0).
  { rewrite List.map_app, list_sum_app, (action_label_unmarked c mi context_item Hc).
    destruct Hc as [<-|[<-|[]]]; reflexivity. }
  destruct (is_submenu mi).
  - unfold list_sum in *. cbn [List.map fold_right count_class].
    unfold list_sum in *. rewrite Hsubs, Hlab.
    unfold tooltip.
    destruct Hc as [<-|[<-|[]]];
      destruct (align_right mi), (truthy (get_legend mi context_item)); reflexivity.
  - unfold list_sum in *. cbn [List.map fold_right count_class app].
    pose proof (action_label_unmarked c mi context_item Hc) as Hl.
    rewrite Hl. unfold tooltip.
    destruct Hc as [<-|[<-|[]]];
      destruct (truthy (get_legend mi context_item)); reflexivity.
Qed.

(** X2.  An action menu never marks the current entry: whatever
    [is_active] answers for the entries and their sub-entries, no element
    rendered for an entry carries the class [active] or the screen-reader
    marker [sr-only]. *)
Theorem action_menu_never_active (context_item : option ctx) (entries : list item) :
  list_sum (List.map (count_class "active")
              (List.concat (List.map (render_action_item icon_markup context_item) entries)))
  = 0
  /\ list_sum (List.map (count_class "sr-only")
                 (List.concat (List.map (render_action_item icon_markup context_item) entries)))
     = 0.
Proof.
  assert (H : forall c, In c ["active"; "sr-only"] ->
    list_sum (List.map (count_class c)
                (List.concat (List.map (render_action_item icon_markup context_item) entries)))
    = 0).
  { intros c Hc. induction entries as [|mi l IH]; [reflexivity|].
    cbn [List.map List.concat]. rewrite List.map_app, list_sum_app, IH.
    now rewrite (action_item_unmarked context_item mi c Hc). }
  split; apply H; cbn; tauto.
Qed.

(** Decide [has_class] where the [class] attribute comes first and is closed. *)
Ltac literal_classes :=
  repeat match goal with
  | |- context [has_class ?c (Elem ?t (("class", ?v) :: ?r) ?ch)] =>
      let b := eval vm_compute in (existsb (String.eqb c) (tokens v)) in
      change (has_class c (Elem t (("class", v) :: r) ch)) with b
  end.

Lemma label_current_marker (mi : item) (b : bool) :
  list_sum (List.map (count_class "sr-only") (navbar_label icon_markup gettext mi b))
  = if b then 1 else 0.
Proof.
  unfold navbar_label.
  destruct (truthy (get_icon mi None)), (truthy (get_title mi None)),
    (resptitle mi), b; reflexivity.
Qed.

Lemma subitem_current_marker (req : request) (sub : item) :
  count_class "sr-only" (render_navbar_subitem icon_markup gettext req sub)
  = if is_active sub req then 1 else 0.
Proof.
  unfold render_navbar_subitem. cbn [count_class]. rewrite label_current_marker.
  destruct (is_active sub req); reflexivity.
Qed.

Lemma subitems_current_marker (req : request) (subs : list item) :
  list_sum (List.map (count_class "sr-only")
              (List.map (render_navbar_subitem icon_markup gettext req) subs))
  = length (List.filter (fun sub => is_active sub req) subs).
Proof.
  induction subs as [|sub subs IH]; [reflexivity|].
  unfold list_sum in *. cbn [List.map fold_right List.filter].
  rewrite subitem_current_marker, IH.
  destruct (is_active sub req); reflexivity.
Qed.


End SiteWidgetsProperties.

Section AuthWidgetProperties.
Import Html MacrosSite SiteWidgets.

Variable icon_markup : string -> string.
Variable gettext : string -> string.
Variable check_endpoint_exists : string -> bool.
Variable url_for : string -> option string.

(** X4.  For an anonymous user the authentication dropdown asks
    [url_for] only for endpoints that exist.  So, when every existing
    endpoint can be built, rendering succeeds and the links are those of
    the existing endpoints among password login, developer login and
    registration, in this order; there is no profile or logout link. *)
Theorem submenu_auth_anonymous (current_user : user) :
  is_authenticated current_user = false ->
  (forall e, check_endpoint_exists e = true -> is_Some (url_for e)) ->
  exists links,
    auth_links gettext check_endpoint_exists url_for current_user = Some links
    /\ is_Some (render_submenu_auth gettext check_endpoint_exists url_for current_user)
    /\ List.map href_of links
       = List.map url_for
           (List.filter check_endpoint_exists
              ["auth_pwd.login"; "auth_dev.login"; "auth_pwd.register"]).
Proof.
  intros Hanon Hurl.
  unfold render_submenu_auth, auth_links. rewrite Hanon.
  unfold guarded_auth_link, auth_link. cbn [List.filter].
  destruct (check_endpoint_exists "auth_pwd.login") eqn:E1;
    [destruct (Hurl _ E1) as [u1 H1]; rewrite H1|];
    (destruct (check_endpoint_exists "auth_dev.login") eqn:E2;
       [destruct (Hurl _ E2) as [u2 H2]; rewrite H2|]);
    (destruct (check_endpoint_exists "auth_pwd.register") eqn:E3;
       [destruct (Hurl _ E3) as [u3 H3]; rewrite H3|]);
    cbn; eexists; (split; [reflexivity|]); (split; [by eexists|]);
    cbn; rewrite ?H1, ?H2, ?H3; reflexivity.
Qed.

(** X5.  For an authenticated user the dropdown holds exactly the profile
    and the logout link, whatever endpoints exist, and rendering fails
    exactly when one of the two cannot be built. *)
Theorem submenu_auth_authenticated (current_user : user) :
  is_authenticated current_user = true ->
  (render_submenu_auth gettext check_endpoint_exists url_for current_user = None
   <-> url_for "users.profile" = None \/ url_for "logout" = None)
  /\ (forall links,
        auth_links gettext check_endpoint_exists url_for current_user = Some links ->
        List.map href_of links = [url_for "users.profile"; url_for "logout"]).
Proof.
  intros Hauth. unfold render_submenu_auth, auth_links. rewrite Hauth.
  unfold auth_link.
  destruct (url_for "users.profile") as [u1|]; destruct (url_for "logout") as [u2|]; cbn.
  - split; [split; [discriminate|intros [H|H]; discriminate]|].
    intros links [= <-]. reflexivity.
  - split; [split; [now right|reflexivity]|]. discriminate.
  - split; [split; [now left|reflexivity]|]. discriminate.
  - split; [split; [now left|reflexivity]|]. discriminate.
Qed.

(** X6.  The categories [error] and [message] are aliases of [danger] and
    [info]: an alert is rendered from the translated category, class and
    default icon alike, so translating a category before the call changes
    nothing. *)
Theorem alert_category_aliases (category : string) (dismissible : bool)
    (forceicon : string) (caller : list html) :
  render_alert icon_markup gettext (alert_category category) dismissible forceicon caller
  = render_alert icon_markup gettext category dismissible forceicon caller
  /\ render_alert icon_markup gettext "error" dismissible forceicon caller
     = render_alert icon_markup gettext "danger" dismissible forceicon caller
  /\ render_alert icon_markup gettext "message" dismissible forceicon caller
     = render_alert icon_markup gettext "info" dismissible forceicon caller
  /\ hd_error (children_of
                 (render_alert icon_markup gettext "error" false "" caller))
     = Some (Raw (icon_markup "alert-danger")).
Proof.
  split; [|split; [reflexivity|split; reflexivity]].
  assert (H : alert_category (alert_category category) = alert_category category).
  { unfold alert_category.
    destruct (String.eqb category "error") eqn:E1; [reflexivity|].
    destruct (String.eqb category "message") eqn:E2; [reflexivity|].
    now rewrite E1, E2. }
  unfold render_alert. now rewrite H.
Qed.


End AuthWidgetProperties.

Section AuthWidgetSamples.
Import Html MacrosSite SiteWidgets.

Lemma submenu_auth_anonymous_witness :
  is_authenticated (User false "") = false
  /\ exists links,
       auth_links (fun s => s) (String.eqb "auth_pwd.login")
         (fun e => Some ("/" +:+ e)) (User false "") = Some links
       /\ List.map href_of links = [Some "/auth_pwd.login"].
Proof.
  split; [reflexivity|].
  destruct (submenu_auth_anonymous (fun s => s) (String.eqb "auth_pwd.login")
              (fun e => Some ("/" +:+ e)) (User false "") eq_refl
              (fun e _ => ex_intro _ ("/" +:+ e) eq_refl))
    as (links & Hl & _ & Hh).
  exists links. split; [exact Hl|exact Hh].
Defined.

Lemma submenu_auth_authenticated_witness :
  is_authenticated (User true "admin") = true
  /\ (render_submenu_auth (fun s => s) (fun _ => false)
        (fun e => if String.eqb e "logout" then None else Some ("/" +:+ e))
        (User true "admin") = None
      <-> Some "/users.profile" = None \/ @None string = None).
Proof.
  split; [reflexivity|].
  exact (proj1 (submenu_auth_authenticated (fun s => s) (fun _ => false)
                  (fun e => if String.eqb e "logout" then None else Some ("/" +:+ e))
                  (User true "admin") eq_refl)).
Defined.

End AuthWidgetSamples.

(** ** The form macros *)

Section MacrosFormProperties.
Import Html MacrosSite SiteWidgets MacrosForm.

Variable icon_markup : string -> string.
Variable gettext : string -> string.

Local Abbreviation error_span := (fun err : string =>
  Elem "span" [("class", "help-block form-error")]
    [Raw (icon_markup "form-error"); Text err]).

(** Decide [has_class] on an element whose attributes are closed. *)
Ltac closed_classes :=
  repeat match goal with
  | |- context [has_class ?c (Elem ?t ?attrs ?ch)] =>
      let b := eval vm_compute in (has_class c (Elem t attrs [])) in
      change (has_class c (Elem t attrs ch)) with b
  end.


Lemma form_errors_count (errs : list string) :
  list_sum (List.map (count_class "form-error") (render_form_errors icon_markup errs))
  = length errs.
Proof.
  induction errs as [|e rest IH]; [reflexivity|].
  cbn [render_form_errors List.map]. rewrite List.map_app.
  unfold list_sum in *. cbn [fold_right]. rewrite fold_right_app, IH.
  destruct rest; reflexivity.
Qed.

Lemma form_errors_no_class (c : string) (errs : list string) :
  In c ["has-error"; "active"] ->
  list_sum (List.map (count_class c) (render_form_errors icon_markup errs)) = 0.
Proof.
  intros Hc. induction errs as [|e rest IH]; [reflexivity|].
  cbn [render_form_errors List.map]. rewrite List.map_app.
  unfold list_sum in *. cbn [fold_right]. rewrite fold_right_app, IH.
  destruct Hc as [<-|[<-|[]]]; destruct rest; reflexivity.
Qed.

Lemma radio_buttons_count (c : string) (subs : list subfield) :
  list_sum (List.map (count_class c) (List.map render_radio_button subs))
  = if String.eqb c "active" then length (List.filter checked subs)
    else if String.eqb c "form-error" then 0
    else list_sum (List.map (count_class c) (List.map render_radio_button subs)).
Proof.
  destruct (String.eqb c "active") eqn:E1.
  - apply String.eqb_eq in E1. subst c.
    induction subs as [|sf rest IH]; [reflexivity|].
    unfold list_sum in *. cbn [List.map fold_right List.filter]. rewrite IH.
    unfold render_radio_button. destruct (checked sf); reflexivity.
  - destruct (String.eqb c "form-error") eqn:E2; [|reflexivity].
    apply String.eqb_eq in E2. subst c.
    induction subs as [|sf rest IH]; [reflexivity|].
    unfold list_sum in *. cbn [List.map fold_right]. rewrite IH.
    unfold render_radio_button. destruct (checked sf); reflexivity.
Qed.

(** X9.  Every field macro marks the form group with [has-error] exactly
    when the field has errors, whether or not the messages are shown; the
    messages themselves appear, one per error, only when [with_errors] is
    set. *)
Theorem form_item_errors (form_item : form_item) (ident : string) (with_errors : bool) :
  Forall (fun h =>
            has_class "has-error" h = nonempty (errors form_item)
            /\ count_class "form-error" h
               = if with_errors then length (errors form_item) else 0)
    [render_form_item_default icon_markup form_item with_errors;
     render_form_item_select icon_markup gettext form_item with_errors;
     render_form_item_datetime icon_markup form_item ident with_errors;
     render_form_item_radiobutton icon_markup form_item with_errors].
Proof.
  assert (Hgroup : forall ch,
    has_class "has-error" (Elem "div" [("class", form_group_class form_item)] ch)
    = nonempty (errors form_item)).
  { intros ch. unfold form_group_class.
    destruct (nonempty (errors form_item)); reflexivity. }
  assert (Hself : forall ch,
    has_class "form-error" (Elem "div" [("class", form_group_class form_item)] ch) = false).
  { intros ch. unfold form_group_class.
    destruct (nonempty (errors form_item)); reflexivity. }
  assert (Herrs : list_sum (List.map (count_class "form-error")
                    (if with_errors then render_form_errors icon_markup (errors form_item)
                     else []))
                  = if with_errors then length (errors form_item) else 0).
  { destruct with_errors; [apply form_errors_count|reflexivity]. }
  repeat apply List.Forall_cons; try apply List.Forall_nil; (split; [apply Hgroup|]).
  - unfold render_form_item_default. cbn [count_class]. rewrite Hself.
    rewrite List.map_app, list_sum_app, Herrs. reflexivity.
  - unfold render_form_item_select. cbn [count_class]. rewrite Hself.
    rewrite List.map_app, list_sum_app, Herrs. reflexivity.
  - unfold render_form_item_datetime. cbn [count_class]. rewrite Hself.
    rewrite List.map_app, list_sum_app, Herrs. reflexivity.
  - unfold render_form_item_radiobutton. cbn [count_class]. rewrite Hself.
    rewrite List.map_app, list_sum_app, Herrs.
    unfold list_sum at 1. cbn [List.map fold_right count_class].
    pose proof (radio_buttons_count "form-error" (subfields form_item)) as Hb.
    cbn in Hb. rewrite Hb. reflexivity.
Qed.

(** X10.  A radio field shows one button per choice, in order, and marks
    exactly the checked choices [active]; nothing else in the field is
    marked. *)
Theorem radiobutton_active (form_item : form_item) (with_errors : bool) :
  count_class "active" (render_form_item_radiobutton icon_markup form_item with_errors)
  = length (List.filter checked (subfields form_item))
  /\ exists group rest,
       children_of (render_form_item_radiobutton icon_markup form_item with_errors)
       = Elem "div" [] [Raw (label form_item)] :: group :: rest
       /\ children_of group = List.map render_radio_button (subfields form_item)
       /\ Forall2 (fun sf b => has_class "active" b = checked sf)
            (subfields form_item) (children_of group).
Proof.
  split.
  - unfold render_form_item_radiobutton. cbn [count_class].
    rewrite List.map_app, list_sum_app.
    assert (He : list_sum (List.map (count_class "active")
                   (if with_errors then render_form_errors icon_markup (errors form_item)
                    else [])) = 0).
    { destruct with_errors; [|reflexivity].
      apply form_errors_no_class. cbn. tauto. }
    rewrite He. unfold list_sum at 1. cbn [List.map fold_right count_class].
    pose proof (radio_buttons_count "active" (subfields form_item)) as Hb.
    cbn in Hb. rewrite Hb.
    unfold form_group_class.
    generalize (length (List.filter checked (subfields form_item))). intros n.
    destruct (nonempty (errors form_item)); closed_classes; cbn; lia.
  - eexists _, _. split; [reflexivity|]. cbn [children_of]. split; [reflexivity|].
    induction (subfields form_item) as [|sf rest IH]; [constructor|].
    cbn [List.map]. constructor; [|exact IH].
    unfold render_radio_button. destruct (checked sf); reflexivity.
Qed.

End MacrosFormProperties.
